(** * Hyderabad air-quality dashboard: loader and AQI category classifier

    A shallow embedding of [app.py]: the data loader [load_data] (read the
    yearly CSV files, tag, concatenate, melt, derive [Date], sort) and the
    "AQI Category Analysis" page (band lookup, boolean-mask filter,
    [groupby(...).size().unstack(fill_value=0)]).

    pandas frames are lists of rows; a frame that carries an index is a list
    of [(label, row)] pairs.  Exceptions are values of [error] threaded
    through a small error monad. *)

From Stdlib Require Import List String Ascii ZArith QArith Lia Bool Arith.
From Stdlib Require Import Permutation Sorted DecimalString.
Import ListNotations.
Local Close Scope Q_scope.
Local Open Scope string_scope.
Local Open Scope list_scope.


(** ** Errors *)

(** The three ways the program stops with an exception.  [MissingSourceError]
    is the [FileNotFoundError] of [pd.read_csv]; [DateParseError] is the
    [ValueError] of [pd.to_datetime], which reports the position of the first
    row it could not parse and the text found there; [InvalidCategoryError] is
    the [KeyError] of the subscript [aqi_categories[selected_category]]. *)
Inductive error : Type :=
| MissingSourceError (path : string)
| DateParseError (position : nat) (text : string)
| InvalidCategoryError (name : string).

Inductive result (A : Type) : Type :=
| OK (a : A)
| Error (e : error).
Arguments OK {A} a.
Arguments Error {A} e.

Definition bind {A B : Type} (r : result A) (k : A -> result B) : result B :=
  match r with
  | OK a => k a
  | Error e => Error e
  end.

Notation "x <- c1 ;; c2" := (bind c1 (fun x => c2))
  (at level 61, c1 at next level, right associativity).

(** [for x in xs: ...] where the body may raise: stops at the first error. *)
Fixpoint mapM {A B : Type} (f : A -> result B) (xs : list A) : result (list B) :=
  match xs with
  | [] => OK []
  | x :: xs' => y <- f x ;; ys <- mapM f xs' ;; OK (y :: ys)
  end.

(** ** Numbers held in the AQI column

    The AQI column is a float64 column: a cell is missing ([NaN]), finite or
    infinite.  Every finite float64 is a rational and the bounds of the bands
    are small integers, so comparisons on finite values are exact. *)
Inductive float : Type :=
| NaN
| NegInf
| Fin (q : Q)
| PosInf.

(** [a <= b] on floats; any comparison with [NaN] is [False]. *)
Definition float_le (a b : float) : bool :=
  match a, b with
  | NaN, _ => false
  | _, NaN => false
  | NegInf, _ => true
  | _, PosInf => true
  | Fin x, Fin y => Qle_bool x y
  | Fin _, NegInf => false
  | PosInf, _ => false
  end.

(** [a >= b]. *)
Definition float_ge (a b : float) : bool := float_le b a.

Definition isna (a : float) : bool :=
  match a with NaN => true | _ => false end.

(** The float of a Python [int] literal. *)
Definition of_int (z : Z) : float := Fin (inject_Z z).

(** ** Dates *)

(** A [Timestamp] at midnight, as its calendar date. *)
Record Timestamp : Type := mkTimestamp {
  ts_year : Z;
  ts_month : nat;
  ts_day : nat
}.

(** Order of timestamps: year, then month, then day. *)
Definition ts_leb (a b : Timestamp) : bool :=
  if (ts_year a <? ts_year b)%Z then true
  else if (ts_year b <? ts_year a)%Z then false
  else if (ts_month a <? ts_month b)%nat then true
  else if (ts_month b <? ts_month a)%nat then false
  else (ts_day a <=? ts_day b)%nat.

Definition ts_ltb (a b : Timestamp) : bool := negb (ts_leb b a).

Definition ts_le (a b : Timestamp) : Prop := ts_leb a b = true.

(** ** Rows *)

(** A row of the melted frame before the [Date] column is added. *)
Record melted_row : Type := mkMelted {
  m_Month : string;
  m_Year : Z;
  m_Location : string;
  m_AQI : float
}.

(** A row of [melted_df] as [load_data] returns it. *)
Record Observation : Type := mkObservation {
  Month : string;
  Year : Z;
  Location : string;
  AQI : float;
  Date : Timestamp
}.

(** A frame with its index: each row with its label. *)
Definition frame (A : Type) : Type := list (nat * A).

(** ** The AQI Category Analysis page *)

(** [aqi_categories], a dict literal; Python keeps the keys in this order. *)
Definition aqi_categories : list (string * (float * float)) :=
  [ ("GOOD", (of_int 0, of_int 50));
    ("SATISFACTORY", (of_int 51, of_int 100));
    ("MODERATE", (of_int 101, of_int 200));
    ("POOR", (of_int 201, of_int 300));
    ("VERY POOR", (of_int 301, of_int 400));
    ("SEVERE", (of_int 401, PosInf)) ].

(** [d[k]] on a dict: the value of the first (only) entry with key [k]. *)
Fixpoint dict_get {V : Type} (d : list (string * V)) (k : string) : option V :=
  match d with
  | [] => None
  | (k', v) :: d' => if String.eqb k' k then Some v else dict_get d' k
  end.

(** [list(d.keys())]. *)
Definition keys {V : Type} (d : list (string * V)) : list string := map fst d.

(** [s >= bound] and [s <= bound] on a column: one boolean per row. *)
Definition series_ge (s : list float) (bound : float) : list bool :=
  map (fun a => float_ge a bound) s.

Definition series_le (s : list float) (bound : float) : list bool :=
  map (fun a => float_le a bound) s.

(** [m1 & m2] on boolean columns of one frame. *)
Fixpoint series_and (m1 m2 : list bool) : list bool :=
  match m1, m2 with
  | b1 :: m1', b2 :: m2' => (b1 && b2) :: series_and m1' m2'
  | _, _ => []
  end.

(** [df[mask]]: the rows whose mask entry is [True], labels kept. *)
Fixpoint boolean_index {A : Type} (df : list A) (mask : list bool) : list A :=
  match df, mask with
  | r :: df', b :: mask' =>
      if b then r :: boolean_index df' mask' else boolean_index df' mask'
  | _, _ => []
  end.

(** The [AQI] column of a frame. *)
Definition col_AQI (df : frame Observation) : list float :=
  map (fun r => AQI (snd r)) df.

(** [melted_df[(melted_df["AQI"] >= lower_bound) & (melted_df["AQI"] <= upper_bound)]]. *)
Definition filter_band (melted_df : frame Observation) (lower_bound upper_bound : float)
  : frame Observation :=
  boolean_index melted_df
    (series_and (series_ge (col_AQI melted_df) lower_bound)
                (series_le (col_AQI melted_df) upper_bound)).

(** *** [groupby(["Location", "Year"]).size().unstack(fill_value=0)] *)

Definition group_key : Type := (string * Z)%type.

Definition key_of (o : Observation) : group_key := (Location o, Year o).

Definition key_eqb (a b : group_key) : bool :=
  String.eqb (fst a) (fst b) && (snd a =? snd b)%Z.

Definition key_ltb (a b : group_key) : bool :=
  if String.ltb (fst a) (fst b) then true
  else if String.eqb (fst a) (fst b) then (snd a <? snd b)%Z
  else false.

(** Insertion into an ascending list without duplicates. *)
Fixpoint insert_uniq {A : Type} (ltb eqb : A -> A -> bool) (x : A) (l : list A) : list A :=
  match l with
  | [] => [x]
  | y :: l' =>
      if ltb x y then x :: y :: l'
      else if eqb x y then y :: l'
      else y :: insert_uniq ltb eqb x l'
  end.

(** The distinct values of a list in ascending order: the level values of a
    sorted group index. *)
Definition sort_uniq {A : Type} (ltb eqb : A -> A -> bool) (l : list A) : list A :=
  fold_right (insert_uniq ltb eqb) [] l.

(** Number of rows of [df] whose group key is [k]. *)
Definition group_size (df : frame Observation) (k : group_key) : nat :=
  List.length (filter (fun r => key_eqb (key_of (snd r)) k) df).

(** [df.groupby(["Location", "Year"]).size()]: one entry per key that occurs
    in [df] (groups are the observed keys only), keys ascending. *)
Definition groupby_size (df : frame Observation) : list (group_key * nat) :=
  map (fun k => (k, group_size df k))
      (sort_uniq key_ltb key_eqb (map (fun r => key_of (snd r)) df)).

Fixpoint series_get (s : list (group_key * nat)) (k : group_key) : option nat :=
  match s with
  | [] => None
  | (k', n) :: s' => if key_eqb k' k then Some n else series_get s' k
  end.

(** The table the bar chart is drawn from: row labels, column labels, and one
    list of counts per row label. *)
Record chart : Type := mkChart {
  index : list string;
  columns : list Z;
  values : list (list nat)
}.

(** [s.unstack(fill_value=fill)]: rows are the first-level values of the
    keys of [s], columns the second-level values; a combination with no entry
    in [s] gets [fill]. *)
Definition unstack (fill : nat) (s : list (group_key * nat)) : chart :=
  let idx := sort_uniq String.ltb String.eqb (map (fun kv => fst (fst kv)) s) in
  let cols := sort_uniq Z.ltb Z.eqb (map (fun kv => snd (fst kv)) s) in
  {| index := idx;
     columns := cols;
     values :=
       map (fun l =>
              map (fun y => match series_get s (l, y) with
                            | Some n => n
                            | None => fill
                            end) cols) idx |}.

(** Position of [x] in [l]. *)
Fixpoint index_of {A : Type} (eqb : A -> A -> bool) (x : A) (l : list A) : option nat :=
  match l with
  | [] => None
  | y :: l' =>
      if eqb y x then Some 0
      else match index_of eqb x l' with
           | Some i => Some (S i)
           | None => None
           end
  end.

(** The entry of the table at row [loc], column [yr], when the table has
    both labels. *)
Definition chart_get (c : chart) (loc : string) (yr : Z) : option nat :=
  match index_of String.eqb loc (index c), index_of Z.eqb yr (columns c) with
  | Some i, Some j =>
      match nth_error (values c) i with
      | Some row => nth_error row j
      | None => None
      end
  | _, _ => None
  end.

(** [filtered_df.groupby(["Location", "Year"]).size().unstack(fill_value=0)]. *)
Definition chart_data (filtered_df : frame Observation) : chart :=
  unstack 0 (groupby_size filtered_df).

(** The page body after the selection: the filtered frame and the table of
    the bar chart, or the error of the dict lookup. *)
Definition category_analysis (melted_df : frame Observation) (selected_category : string)
  : result (frame Observation * chart) :=
  match dict_get aqi_categories selected_category with
  | None => Error (InvalidCategoryError selected_category)
  | Some (lower_bound, upper_bound) =>
      let filtered_df := filter_band melted_df lower_bound upper_bound in
      OK (filtered_df, chart_data filtered_df)
  end.

(** ** The loader *)

(** What [pd.read_csv] returns for one yearly file: the [Month] column and
    the other (location) columns, row by row.  [read_csv] renames repeated
    header names, so the names in [locations] are distinct, and a row shorter
    than the header has [NaN] in the cells it lacks.  The file has a [Month]
    column, whose cells are strings; no location column is called [Year] or
    [AQI]; the cells of the location columns are numbers or empty. *)
Record RawYearTable : Type := mkRaw {
  locations : list string;
  rows : list (string * list float)
}.

(** The files on disk, by path. *)
Definition filesystem : Type := string -> option RawYearTable.

(** A row of a wide frame: [Month], [Year] and the cells by column name. *)
Record wide_row : Type := mkWide {
  w_Month : string;
  w_Year : Z;
  w_cells : list (string * float)
}.

(** A wide frame: its location columns in order, and its rows. *)
Record wide_frame : Type := mkWideFrame {
  w_locations : list string;
  w_rows : list wide_row
}.

(** The cells of a row, each under the name of its column. *)
Fixpoint named_cells (names : list string) (cells : list float) : list (string * float) :=
  match names with
  | [] => []
  | n :: names' => (n, hd NaN cells) :: named_cells names' (tl cells)
  end.

(** [df['Year'] = year]. *)
Definition tag_year (df : RawYearTable) (year : Z) : wide_frame :=
  {| w_locations := locations df;
     w_rows := map (fun r => {| w_Month := fst r;
                                w_Year := year;
                                w_cells := named_cells (locations df) (snd r) |})
                   (rows df) |}.

(** The cell of a row under column [loc]; [NaN] when the row's own frame had
    no such column. *)
Definition cell (r : wide_row) (loc : string) : float :=
  match dict_get (w_cells r) loc with
  | Some v => v
  | None => NaN
  end.

(** [range(a, b)]. *)
Definition range (a b : Z) : list Z :=
  map (fun i => (a + Z.of_nat i)%Z) (seq 0 (Z.to_nat (b - a))).

(** [str(n)] for an [int]. *)
Definition str (n : Z) : string := NilZero.string_of_int (Z.to_int n).

(** ASCII lower case. *)
Definition lower_ascii (c : ascii) : ascii :=
  let n := nat_of_ascii c in
  if ((65 <=? n) && (n <=? 90))%nat then ascii_of_nat (n + 32) else c.

Fixpoint lower (s : string) : string :=
  match s with
  | EmptyString => EmptyString
  | String c s' => String (lower_ascii c) (lower s')
  end.

(** The abbreviated month names of the C locale, as [%b] knows them. *)
Definition a_month : list string :=
  ["jan"; "feb"; "mar"; "apr"; "may"; "jun";
   "jul"; "aug"; "sep"; "oct"; "nov"; "dec"].

(** The month number [%b] reads from a month field; letter case is ignored. *)
Definition parse_b (s : string) : option nat :=
  option_map S (index_of String.eqb (lower s) a_month).

Definition digit (c : ascii) : option Z :=
  let n := nat_of_ascii c in
  if ((48 <=? n) && (n <=? 57))%nat then Some (Z.of_nat (n - 48)) else None.

(** Parsing one string with the format ['%Y-%b']: four digits, a dash, a
    month abbreviation and nothing after it; the day defaults to 1. *)
Definition strptime (s : string) : option Timestamp :=
  match s with
  | String a (String b (String c (String d (String sep rest)))) =>
      match digit a, digit b, digit c, digit d with
      | Some da, Some db, Some dc, Some dd =>
          if Ascii.eqb sep "-" then
            match parse_b rest with
            | Some m => Some (mkTimestamp (1000 * da + 100 * db + 10 * dc + dd) m 1)
            | None => None
            end
          else None
      | _, _, _, _ => None
      end
  | _ => None
  end.

(** [l.take(indexer)]: the elements of [l] at the positions of [indexer], in
    that order. *)
Definition take {A : Type} (l : list A) (indexer : list nat) : list A :=
  flat_map (fun i => match nth_error l i with
                     | Some x => [x]
                     | None => []
                     end) indexer.

Module pd.

(** [pd.read_csv(file_path)]. *)
Definition read_csv (fs : filesystem) (file_path : string) : result RawYearTable :=
  match fs file_path with
  | Some df => OK df
  | None => Error (MissingSourceError file_path)
  end.

(** Adding a column name to the columns seen so far. *)
Definition add_column (acc : list string) (c : string) : list string :=
  if existsb (String.eqb c) acc then acc else acc ++ [c].

(** The location columns of the concatenation: the union of the frames'
    columns, in order of first appearance. *)
Definition union_columns (dfs : list wide_frame) : list string :=
  fold_left (fun acc df => fold_left add_column (w_locations df) acc) dfs [].

(** [pd.concat(dfs, ignore_index=True)]: the rows of the frames one after
    the other, over the union of their columns. *)
Definition concat (dfs : list wide_frame) : wide_frame :=
  {| w_locations := union_columns dfs;
     w_rows := flat_map w_rows dfs |}.

(** A fresh [RangeIndex]. *)
Definition reset_index {A : Type} (l : list A) : frame A :=
  combine (seq 0 (List.length l)) l.

(** [pd.melt(df, id_vars=['Month', 'Year'], var_name='Location',
    value_name='AQI')]: for each location column in turn, one row per row
    of [df]. *)
Definition melt (df : wide_frame) : frame melted_row :=
  reset_index
    (flat_map (fun loc =>
                 map (fun r => mkMelted (w_Month r) (w_Year r) loc (cell r loc))
                     (w_rows df))
              (w_locations df)).

(** [pd.to_datetime(col, format='%Y-%b')] from position [pos] on: the first
    string that does not parse raises, with its position. *)
Fixpoint to_datetime_from (pos : nat) (col : list string) : result (list Timestamp) :=
  match col with
  | [] => OK []
  | s :: col' =>
      match strptime s with
      | Some t => ts <- to_datetime_from (S pos) col' ;; OK (t :: ts)
      | None => Error (DateParseError pos s)
      end
  end.

Definition to_datetime (col : list string) : result (list Timestamp) :=
  to_datetime_from 0 col.

End pd.

(** [melted_df['Year'].astype(str) + '-' + melted_df['Month']]. *)
Definition date_strings (melted_df : frame melted_row) : list string :=
  map (fun r => (str (m_Year (snd r)) ++ "-" ++ m_Month (snd r))%string) melted_df.

(** [melted_df['Date'] = dates]. *)
Fixpoint assign_Date (melted_df : frame melted_row) (dates : list Timestamp)
  : frame Observation :=
  match melted_df, dates with
  | (i, r) :: df', d :: dates' =>
      (i, mkObservation (m_Month r) (m_Year r) (m_Location r) (m_AQI r) d)
        :: assign_Date df' dates'
  | _, _ => []
  end.

(** The [Date] column. *)
Definition col_Date (df : frame Observation) : list Timestamp :=
  map (fun r => Date (snd r)) df.

(** [years = range(2016, 2024)]. *)
Definition years : list Z := range 2016 2024.

(** [f'Data/hyd_air_quality_{year}.csv']. *)
Definition file_path (year : Z) : string :=
  ("Data/hyd_air_quality_" ++ str year ++ ".csv")%string.

Section Loader.

(** [argsort] is the sorting routine behind [sort_values], called with
    pandas' default [kind='quicksort']: it returns the positions of the keys
    in ascending key order.  Which of two equal keys comes first is the
    routine's own business (only the kinds 'mergesort' and 'stable', which
    the program does not ask for, promise to keep their order). *)
Variable argsort : list Timestamp -> list nat.

(** [df.sort_values('Date')]: rows reordered by the indexer, labels kept. *)
Definition sort_values (df : frame Observation) : frame Observation :=
  take df (argsort (col_Date df)).

(** [load_data()]. *)
Definition load_data (fs : filesystem) : result (frame Observation) :=
  dfs <- mapM (fun year =>
                 df <- pd.read_csv fs (file_path year) ;;
                 OK (tag_year df year)) years ;;
  let combined_df := pd.concat dfs in
  let melted_df := pd.melt combined_df in
  dates <- pd.to_datetime (date_strings melted_df) ;;
  let melted_df := assign_Date melted_df dates in
  OK (sort_values melted_df).

(** [@st.cache_data]: a session keeps the frame of the first call that
    returned; a call that raised stores nothing. *)
Record session : Type := mkSession {
  cache_data : option (frame Observation)
}.

Definition cached_load_data (fs : filesystem) (s : session)
  : result (frame Observation) * session :=
  match cache_data s with
  | Some df => (OK df, s)
  | None =>
      match load_data fs with
      | OK df => (OK df, {| cache_data := Some df |})
      | Error e => (Error e, s)
      end
  end.

End Loader.

(** What [argsort] promises: a permutation of the positions that puts the
    keys in ascending order. *)
Definition argsort_spec (argsort : list Timestamp -> list nat) : Prop :=
  forall keys,
    Permutation (argsort keys) (seq 0 (List.length keys)) /\
    Sorted ts_le (take keys (argsort keys)).


(** Two sorting routines that keep the promise.  Both insert the keys one by
    one, last key first, into an ascending list; [before] decides whether the
    new key goes in front of the one it meets. *)
Fixpoint insert_by (before : Timestamp -> Timestamp -> bool)
  (x : nat * Timestamp) (l : list (nat * Timestamp)) : list (nat * Timestamp) :=
  match l with
  | [] => [x]
  | y :: l' => if before (snd x) (snd y) then x :: y :: l' else y :: insert_by before x l'
  end.

Definition argsort_by (before : Timestamp -> Timestamp -> bool) (keys : list Timestamp)
  : list nat :=
  map fst (fold_right (insert_by before) [] (pd.reset_index keys)).

(** In front of the first key that is not smaller: equal keys keep their
    order (a stable sort). *)
Definition argsort_insertion : list Timestamp -> list nat := argsort_by ts_leb.

(** In front of the first key that is larger: equal keys come out in reverse
    order (ascending all the same). *)
Definition argsort_ties_reversed : list Timestamp -> list nat := argsort_by ts_ltb.


(** ** The Time Series page *)

(** [s.unique()]: the distinct values of a column, in order of first
    appearance. *)
Definition unique (col : list string) : list string :=
  fold_left pd.add_column col [].

(** The [Location] column. *)
Definition col_Location (df : frame Observation) : list string :=
  map (fun r => Location (snd r)) df.

(** [s == value] on a column: one boolean per row. *)
Definition series_eq (s : list string) (value : string) : list bool :=
  map (fun a => String.eqb a value) s.

(** [go.Scatter(x=..., y=..., mode='lines', name=...)]. *)
Record Scatter : Type := mkScatter {
  sc_x : list Timestamp;
  sc_y : list float;
  sc_name : string
}.

(** [melted_df[melted_df['Location'] == location]]. *)
Definition df_location (melted_df : frame Observation) (location : string)
  : frame Observation :=
  boolean_index melted_df (series_eq (col_Location melted_df) location).

(** The traces added to [fig_timeseries], in the order of the loop over
    [melted_df['Location'].unique()]. *)
Definition fig_timeseries (melted_df : frame Observation) : list Scatter :=
  map (fun location =>
         mkScatter (col_Date (df_location melted_df location))
                   (col_AQI (df_location melted_df location))
                   location)
      (unique (col_Location melted_df)).

(** ** Vocabulary of the statements *)

(** The value [v] lies in the band with bounds [b]: the two comparisons of
    the mask of [filter_band], on one value. *)
Definition in_band (v : float) (b : float * float) : bool :=
  float_ge v (fst b) && float_le v (snd b).

(** The names of the bands of [aqi_categories] in which [v] lies. *)
Definition bands_of (v : float) : list string :=
  map fst (filter (fun kv => in_band v (snd kv)) aqi_categories).

(** [l1] is [l2] with some elements left out, order kept. *)
Inductive subseq {A : Type} : list A -> list A -> Prop :=
| subseq_nil : subseq [] []
| subseq_skip : forall x l1 l2, subseq l1 l2 -> subseq l1 (x :: l2)
| subseq_keep : forall x l1 l2, subseq l1 l2 -> subseq (x :: l1) (x :: l2).

(** Every element of a column of dates is at most the next one. *)
Definition ascending (dates : list Timestamp) : Prop :=
  forall i a b,
    nth_error dates i = Some a ->
    nth_error dates (S i) = Some b ->
    ts_le a b.

(** The month number of a [Month] value; 0 when [%b] does not know it. *)
Definition month_number (s : string) : nat :=
  match parse_b s with
  | Some k => k
  | None => 0%nat
  end.

(** The table has one row for each calendar month. *)
Definition twelve_months (t : RawYearTable) : Prop :=
  Permutation (map (fun r => parse_b (fst r)) (rows t)) (map Some (seq 1 12)).

(** Reading and tagging the yearly files, the first step of [load_data]. *)
Definition read_years (fs : filesystem) (ys : list Z) : result (list wide_frame) :=
  mapM (fun year => df <- pd.read_csv fs (file_path year) ;; OK (tag_year df year)) ys.


(** Row [o] of the dated frame comes from row [p] of the melted frame: same
    label, same cells, and a [Date] parsed from the year and month of [p]. *)
Definition dated (p : nat * melted_row) (o : nat * Observation) : Prop :=
  fst o = fst p /\
  Month (snd o) = m_Month (snd p) /\
  Year (snd o) = m_Year (snd p) /\
  Location (snd o) = m_Location (snd p) /\
  AQI (snd o) = m_AQI (snd p) /\
  strptime (str (m_Year (snd p)) ++ "-" ++ m_Month (snd p)) = Some (Date (snd o)).

(** Labelled keys compared by key alone. *)
Definition key_le (a b : nat * Timestamp) : Prop := ts_le (snd a) (snd b).

(** [df] is the file of year [y], read and tagged. *)
Definition tagged (fs : filesystem) (y : Z) (df : wide_frame) : Prop :=
  exists t, fs (file_path y) = Some t /\ df = tag_year t y.

(** The sum of all the counts of a table: the total height of its bars. *)
Definition chart_total (c : chart) : nat :=
  list_sum (map (fun row => list_sum row) (values c)).

(** Strictly ascending lists of strings and of integers. *)
Definition string_lt (a b : string) : Prop := String.ltb a b = true.

Definition ascending_strings (l : list string) : Prop := StronglySorted string_lt l.

Definition ascending_Z (l : list Z) : Prop := StronglySorted Z.lt l.

(** Number of rows of the file of a year (0 when the file is not there),
    and of all the yearly files together. *)
Definition file_rows (fs : filesystem) (year : Z) : nat :=
  match fs (file_path year) with
  | Some t => List.length (rows t)
  | None => 0%nat
  end.

Definition total_rows (fs : filesystem) : nat :=
  list_sum (map (file_rows fs) years).

(** Every [Month] of the table is an abbreviation that [%b] knows. *)
Definition months_known (t : RawYearTable) : Prop :=
  forall row, In row (rows t) -> parse_b (fst row) <> None.

(** [L] is a location column of one of the yearly files. *)
Definition location_of (fs : filesystem) (L : string) : Prop :=
  exists y t, In y years /\ fs (file_path y) = Some t /\ In L (locations t).

(** ** Example sources *)

(** One month, two stations: station A reads 40, station B reads 120. *)
Definition table_AB : RawYearTable :=
  mkRaw ["A"; "B"] [("Jan", [Fin (inject_Z 40); Fin (inject_Z 120)])].

(** Every yearly file holds [table_AB]. *)
Definition fs_AB : filesystem := fun _ => Some table_AB.

(** One month, three stations. *)
Definition table_ABC : RawYearTable :=
  mkRaw ["A"; "B"; "C"]
        [("Jan", [Fin (inject_Z 40); Fin (inject_Z 120); Fin (inject_Z 310)])].

(** Every yearly file holds [table_ABC]: 24 melted rows, labelled 0 to 7 for
    station A, 8 to 15 for station B, 16 to 23 for station C. *)
Definition fs_ABC : filesystem := fun _ => Some table_ABC.


(** A table whose only month is misspelt. *)
Definition table_Jann : RawYearTable :=
  mkRaw ["A"] [("Jann", [Fin (inject_Z 40)])].


(** Full years: station A alone, and stations A and B. *)
Definition months12 : list string :=
  ["Jan"; "Feb"; "Mar"; "Apr"; "May"; "Jun";
   "Jul"; "Aug"; "Sep"; "Oct"; "Nov"; "Dec"].

Definition table_A12 : RawYearTable :=
  mkRaw ["A"] (map (fun m => (m, [Fin (inject_Z 40)])) months12).

Definition table_AB12 : RawYearTable :=
  mkRaw ["A"; "B"] (map (fun m => (m, [Fin (inject_Z 40); Fin (inject_Z 120)])) months12).

(** Station B was measured in 2016 only. *)
Definition fs_12 : filesystem :=
  fun path =>
    if String.eqb path (file_path 2016) then Some table_AB12 else Some table_A12.

(** The file of 2019 is missing, and so is the file of 2021. *)
Definition fs_gaps : filesystem :=
  fun path =>
    if String.eqb path (file_path 2019) then None
    else if String.eqb path (file_path 2021) then None
    else Some table_Jann.

(** A frame of one row whose AQI is 50.5. *)
Definition row_50_5 : nat * Observation :=
  (0%nat, mkObservation "Jan" 2016 "A" (Fin (101 # 2)) (mkTimestamp 2016 1 1)).

Definition frame_50_5 : frame Observation := [row_50_5].

(** Two rows in the band GOOD: station A in 2016, station B in 2017. *)
Definition frame_two : frame Observation :=
  [(0%nat, mkObservation "Jan" 2016 "A" (Fin (inject_Z 40)) (mkTimestamp 2016 1 1));
   (1%nat, mkObservation "Jan" 2017 "B" (Fin (inject_Z 45)) (mkTimestamp 2017 1 1))].

(** ** Facts about lists, masks and dates *)

Lemma series_and_map {A : Type} (f g : A -> bool) (l : list A) :
  series_and (map f l) (map g l) = map (fun x => f x && g x) l.
Proof.
  induction l as [| x l IH]; simpl; [reflexivity | now rewrite IH].
Qed.

Lemma boolean_index_map {A : Type} (f : A -> bool) (l : list A) :
  boolean_index l (map f l) = filter f l.
Proof.
  induction l as [| x l IH]; simpl; [reflexivity |].
  rewrite IH. reflexivity.
Qed.

Lemma filter_band_filter (df : frame Observation) (lo hi : float) :
  filter_band df lo hi =
  filter (fun r => in_band (AQI (snd r)) (lo, hi)) df.
Proof.
  unfold filter_band, series_ge, series_le, col_AQI.
  rewrite !map_map, series_and_map, boolean_index_map.
  reflexivity.
Qed.

Lemma float_le_not_nan_l (a b : float) : float_le a b = true -> a <> NaN.
Proof. destruct a; simpl; congruence. Qed.

Lemma filter_subseq {A : Type} (f : A -> bool) (l : list A) :
  subseq (filter f l) l.
Proof.
  induction l as [| x l IH]; simpl.
  - constructor.
  - destruct (f x); now constructor.
Qed.

Lemma ts_leb_spec (a b : Timestamp) :
  ts_leb a b = true <->
  (ts_year a < ts_year b)%Z \/
  (ts_year a = ts_year b /\
   ((ts_month a < ts_month b)%nat \/
    (ts_month a = ts_month b /\ (ts_day a <= ts_day b)%nat))).
Proof.
  unfold ts_leb.
  destruct (Z.ltb_spec (ts_year a) (ts_year b)); [intuition lia |].
  destruct (Z.ltb_spec (ts_year b) (ts_year a)); [intuition (try lia; discriminate) |].
  destruct (Nat.ltb_spec (ts_month a) (ts_month b)); [intuition lia |].
  destruct (Nat.ltb_spec (ts_month b) (ts_month a)); [intuition (try lia; discriminate) |].
  rewrite Nat.leb_le. intuition lia.
Qed.

Lemma ts_le_trans (a b c : Timestamp) : ts_le a b -> ts_le b c -> ts_le a c.
Proof. unfold ts_le. rewrite !ts_leb_spec. lia. Qed.

Lemma ts_le_total (a b : Timestamp) : ts_le a b \/ ts_le b a.
Proof. unfold ts_le. rewrite !ts_leb_spec. lia. Qed.


Lemma ts_ltb_false_le (a b : Timestamp) : ts_ltb a b = false -> ts_le b a.
Proof.
  unfold ts_ltb, ts_le. destruct (ts_leb b a); simpl; congruence.
Qed.

Lemma ts_ltb_true_le (a b : Timestamp) : ts_ltb a b = true -> ts_le a b.
Proof.
  unfold ts_ltb. intros H.
  destruct (ts_le_total a b) as [Hab | Hba]; [assumption |].
  unfold ts_le in Hba. rewrite Hba in H. discriminate.
Qed.

Lemma ts_leb_false_le (a b : Timestamp) : ts_leb a b = false -> ts_le b a.
Proof.
  intros H. destruct (ts_le_total a b) as [Hab | Hba]; [| assumption].
  unfold ts_le in Hab. congruence.
Qed.

Lemma Sorted_ascending (l : list Timestamp) : Sorted ts_le l <-> ascending l.
Proof.
  unfold ascending. split.
  - induction 1 as [| x l Hs IH Hd]; intros i a b Ha Hb.
    + destruct i; discriminate.
    + destruct i as [| i]; simpl in Ha, Hb.
      * injection Ha as <-. destruct l as [| y l]; [discriminate |].
        simpl in Hb. injection Hb as <-. now inversion Hd.
      * eapply IH; eassumption.
  - induction l as [| x l IH]; intros H; constructor.
    + apply IH. intros i a b Ha Hb. apply (H (S i) a b); assumption.
    + destruct l as [| y l]; constructor.
      apply (H 0%nat x y); reflexivity.
Qed.

Lemma Sorted_filter_map {A : Type} (key : A -> Timestamp) (f : A -> bool) (l : list A) :
  Sorted ts_le (map key l) -> Sorted ts_le (map key (filter f l)).
Proof.
  intros H. apply StronglySorted_Sorted.
  apply Sorted_StronglySorted in H; [| intros a b c; apply ts_le_trans].
  induction l as [| x l IH]; simpl in *; [constructor |].
  inversion H as [| ? ? Hs Hall]; subst.
  destruct (f x); simpl; [| now apply IH].
  constructor; [now apply IH |].
  rewrite Forall_forall in *. intros d Hd.
  apply Hall. rewrite in_map_iff in *.
  destruct Hd as (r & <- & Hr). exists r. split; [reflexivity |].
  apply filter_In in Hr. tauto.
Qed.

(** ** The category table *)

Lemma insert_uniq_In {A : Type} (ltb eqb : A -> A -> bool)
  (eqb_eq : forall x y, eqb x y = true -> x = y) (x z : A) (l : list A) :
  In z (insert_uniq ltb eqb x l) <-> z = x \/ In z l.
Proof.
  induction l as [| y l IH]; simpl.
  - intuition.
  - destruct (ltb x y); simpl; [intuition |].
    destruct (eqb x y) eqn:E; simpl.
    + apply eqb_eq in E. subst. intuition.
    + rewrite IH. intuition.
Qed.

Lemma sort_uniq_In {A : Type} (ltb eqb : A -> A -> bool)
  (eqb_eq : forall x y, eqb x y = true -> x = y) (z : A) (l : list A) :
  In z (sort_uniq ltb eqb l) <-> In z l.
Proof.
  unfold sort_uniq. induction l as [| x l IH]; simpl; [tauto |].
  rewrite insert_uniq_In by assumption. rewrite IH. intuition.
Qed.

Lemma index_of_In {A : Type} (eqb : A -> A -> bool)
  (eqb_eq : forall x y, eqb x y = true <-> x = y) (x : A) (l : list A) :
  In x l -> exists i, index_of eqb x l = Some i /\ nth_error l i = Some x.
Proof.
  induction l as [| y l IH]; simpl; [tauto |].
  intros H. destruct (eqb y x) eqn:E.
  - apply eqb_eq in E. subst. exists 0%nat. split; reflexivity.
  - destruct H as [-> | H]; [rewrite (proj2 (eqb_eq x x) eq_refl) in E; discriminate |].
    destruct (IH H) as (i & Hi & Hn). exists (S i). rewrite Hi. split; [reflexivity | exact Hn].
Qed.

Lemma index_of_not_In {A : Type} (eqb : A -> A -> bool)
  (eqb_eq : forall x y, eqb x y = true <-> x = y) (x : A) (l : list A) :
  ~ In x l -> index_of eqb x l = None.
Proof.
  induction l as [| y l IH]; simpl; [reflexivity |].
  intros H. destruct (eqb y x) eqn:E.
  - apply eqb_eq in E. subst. tauto.
  - rewrite IH by tauto. reflexivity.
Qed.

Lemma key_eqb_eq (a b : group_key) : key_eqb a b = true <-> a = b.
Proof.
  unfold key_eqb. destruct a as [l y], b as [l' y']; simpl.
  rewrite andb_true_iff, String.eqb_eq, Z.eqb_eq.
  split; [intros [-> ->]; reflexivity | intros [= -> ->]; split; reflexivity].
Qed.

Lemma series_get_map (f : group_key -> nat) (ks : list group_key) (k : group_key) :
  In k ks -> series_get (map (fun k => (k, f k)) ks) k = Some (f k).
Proof.
  induction ks as [| k' ks IH]; simpl; [tauto |].
  intros H. destruct (key_eqb k' k) eqn:E.
  - apply key_eqb_eq in E. now subst.
  - apply IH. destruct H as [-> | H]; [| exact H].
    rewrite (proj2 (key_eqb_eq k k) eq_refl) in E. discriminate.
Qed.

Lemma series_get_map_None (f : group_key -> nat) (ks : list group_key) (k : group_key) :
  ~ In k ks -> series_get (map (fun k => (k, f k)) ks) k = None.
Proof.
  induction ks as [| k' ks IH]; simpl; [reflexivity |].
  intros H. destruct (key_eqb k' k) eqn:E.
  - apply key_eqb_eq in E. tauto.
  - apply IH. tauto.
Qed.

Lemma group_size_absent (df : frame Observation) (k : group_key) :
  ~ In k (map (fun r => key_of (snd r)) df) -> group_size df k = 0%nat.
Proof.
  unfold group_size. induction df as [| r df IH]; simpl; [reflexivity |].
  intros H. destruct (key_eqb (key_of (snd r)) k) eqn:E.
  - apply key_eqb_eq in E. tauto.
  - apply IH. tauto.
Qed.

Lemma key_eqb_eq_true (x y : group_key) : key_eqb x y = true -> x = y.
Proof. apply key_eqb_eq. Qed.

Lemma string_eqb_eq_true (x y : string) : String.eqb x y = true -> x = y.
Proof. apply String.eqb_eq. Qed.

Lemma Z_eqb_eq_true (x y : Z) : Z.eqb x y = true -> x = y.
Proof. apply Z.eqb_eq. Qed.

(** The row labels of the table are the locations of the grouped frame, the
    column labels its years. *)
Lemma chart_data_index (df : frame Observation) (loc : string) :
  In loc (index (chart_data df)) <-> In loc (map (fun r => Location (snd r)) df).
Proof.
  unfold chart_data, unstack, groupby_size; simpl.
  rewrite sort_uniq_In by apply string_eqb_eq_true.
  rewrite map_map; simpl.
  rewrite !in_map_iff. split.
  - intros (k & <- & Hk). apply sort_uniq_In in Hk; [| apply key_eqb_eq_true].
    apply in_map_iff in Hk. destruct Hk as (r & <- & Hr). now exists r.
  - intros (r & <- & Hr). exists (key_of (snd r)). split; [reflexivity |].
    apply sort_uniq_In; [apply key_eqb_eq_true |]. apply in_map_iff. now exists r.
Qed.

Lemma chart_data_columns (df : frame Observation) (yr : Z) :
  In yr (columns (chart_data df)) <-> In yr (map (fun r => Year (snd r)) df).
Proof.
  unfold chart_data, unstack, groupby_size; simpl.
  rewrite sort_uniq_In by apply Z_eqb_eq_true.
  rewrite map_map; simpl.
  rewrite !in_map_iff. split.
  - intros (k & <- & Hk). apply sort_uniq_In in Hk; [| apply key_eqb_eq_true].
    apply in_map_iff in Hk. destruct Hk as (r & <- & Hr). now exists r.
  - intros (r & <- & Hr). exists (key_of (snd r)). split; [reflexivity |].
    apply sort_uniq_In; [apply key_eqb_eq_true |]. apply in_map_iff. now exists r.
Qed.

Lemma chart_get_present (df : frame Observation) (loc : string) (yr : Z) :
  In loc (map (fun r => Location (snd r)) df) ->
  In yr (map (fun r => Year (snd r)) df) ->
  chart_get (chart_data df) loc yr = Some (group_size df (loc, yr)).
Proof.
  intros Hl Hy.
  apply chart_data_index in Hl. apply chart_data_columns in Hy.
  unfold chart_get.
  destruct (index_of_In String.eqb String.eqb_eq loc _ Hl) as (i & -> & Hi).
  destruct (index_of_In Z.eqb Z.eqb_eq yr _ Hy) as (j & -> & Hj).
  unfold chart_data, unstack in *; simpl in *.
  rewrite nth_error_map, Hi; simpl.
  rewrite nth_error_map, Hj; simpl.
  f_equal. unfold groupby_size.
  set (ks := sort_uniq key_ltb key_eqb (map (fun r => key_of (snd r)) df)).
  destruct (in_dec (fun a b => match bool_dec (key_eqb a b) true with
                               | left e => left (proj1 (key_eqb_eq a b) e)
                               | right n => right (fun e => n (proj2 (key_eqb_eq a b) e))
                               end) (loc, yr) ks) as [Hin | Hout].
  - rewrite (series_get_map (group_size df) ks _ Hin). reflexivity.
  - rewrite (series_get_map_None (group_size df) ks _ Hout).
    symmetry. apply group_size_absent. intros H. apply Hout.
    apply sort_uniq_In; [apply key_eqb_eq_true | exact H].
Qed.

Lemma chart_get_no_row (df : frame Observation) (loc : string) (yr : Z) :
  ~ In loc (map (fun r => Location (snd r)) df) ->
  chart_get (chart_data df) loc yr = None.
Proof.
  intros H. unfold chart_get.
  rewrite (index_of_not_In String.eqb String.eqb_eq); [reflexivity |].
  now rewrite chart_data_index.
Qed.

Lemma chart_get_no_column (df : frame Observation) (loc : string) (yr : Z) :
  ~ In yr (map (fun r => Year (snd r)) df) ->
  chart_get (chart_data df) loc yr = None.
Proof.
  intros H. unfold chart_get.
  rewrite (index_of_not_In Z.eqb Z.eqb_eq yr); [now destruct (index_of _ loc _) |].
  now rewrite chart_data_columns.
Qed.

(** ** The bands *)

Ltac split_leb :=
  repeat match goal with
         | |- context [Z.leb ?a ?b] => destruct (Z.leb_spec a b); try lia
         end.

Lemma bands_of_at_most_one (v : float) : (List.length (bands_of v) <= 1)%nat.
Proof.
  destruct v as [| | [n d] |]; try (vm_compute; lia).
  unfold bands_of, aqi_categories, in_band, float_ge, float_le, of_int, Qle_bool;
    cbn [filter map fst snd Qnum Qden inject_Z].
  split_leb; cbn; lia.
Qed.


Lemma dict_get_filter_In {V : Type} (f : V -> bool) (d : list (string * V))
  (name : string) (b : V) :
  NoDup (keys d) ->
  dict_get d name = Some b ->
  (In name (map fst (filter (fun kv => f (snd kv)) d)) <-> f b = true).
Proof.
  unfold keys. induction d as [| [k v] d IH]; intros Hnd Hget; [discriminate |].
  simpl in Hnd, Hget. inversion Hnd as [| ? ? Hout Hnd']; subst.
  cbn [filter snd]. destruct (String.eqb_spec k name) as [-> | Hne].
  - injection Hget as ->. destruct (f b) eqn:E; cbn [map fst].
    + split; [reflexivity | intros _; now left].
    + split; [| discriminate]. intros Hin. exfalso. apply Hout.
      apply in_map_iff in Hin. destruct Hin as (kv & <- & Hkv).
      apply filter_In in Hkv. apply in_map. tauto.
  - specialize (IH Hnd' Hget). destruct (f v); cbn [map fst]; [| exact IH].
    rewrite <- IH. simpl. intuition congruence.
Qed.

Lemma NoDup_keys_aqi_categories : NoDup (keys aqi_categories).
Proof.
  unfold keys, aqi_categories. simpl.
  repeat constructor; simpl; intuition discriminate.
Qed.

(** A row is in the filtered frame of a band exactly when it is in the frame
    and the band is one of the bands of its AQI. *)
Lemma filter_band_bands_of (df : frame Observation) (r : nat * Observation)
  (name : string) (lo hi : float) :
  dict_get aqi_categories name = Some (lo, hi) ->
  (In r (filter_band df lo hi) <-> In r df /\ In name (bands_of (AQI (snd r)))).
Proof.
  intros Hget. rewrite filter_band_filter, filter_In. unfold bands_of.
  rewrite (dict_get_filter_In (in_band (AQI (snd r))) aqi_categories name (lo, hi)
             NoDup_keys_aqi_categories Hget).
  reflexivity.
Qed.




(** C9: a name outside the six keys of [aqi_categories] makes the lookup,
    and with it the page, fail with [InvalidCategoryError] carrying that
    name; each of the six keys is found, with its own bounds, and the page
    goes on to filter with them. *)
Theorem aqi_categories_lookup :
  forall (melted_df : frame Observation) (name : string),
    keys aqi_categories
    = ["GOOD"; "SATISFACTORY"; "MODERATE"; "POOR"; "VERY POOR"; "SEVERE"] /\
    (~ In name (keys aqi_categories) ->
     dict_get aqi_categories name = None /\
     category_analysis melted_df name = Error (InvalidCategoryError name)) /\
    (In name (keys aqi_categories) ->
     exists lo hi,
       In (name, (lo, hi)) aqi_categories /\
       dict_get aqi_categories name = Some (lo, hi) /\
       category_analysis melted_df name
       = OK (filter_band melted_df lo hi, chart_data (filter_band melted_df lo hi))).
Proof.
  intros melted_df name. split; [reflexivity |].
  unfold category_analysis, keys, aqi_categories; cbn [map fst dict_get In].
  split.
  - intros Hout.
    repeat match goal with
           | |- context [String.eqb ?a name] =>
               destruct (String.eqb_spec a name); [exfalso; tauto |]
           end.
    split; reflexivity.
  - intros Hin.
    repeat match goal with
           | |- context [String.eqb ?a name] =>
               destruct (String.eqb_spec a name);
               [subst name; do 2 eexists; repeat split; tauto |]
           end.
    exfalso; tauto.
Qed.

Lemma aqi_categories_lookup_witness :
  (dict_get aqi_categories "EXCELLENT" = None /\
   category_analysis frame_50_5 "EXCELLENT" = Error (InvalidCategoryError "EXCELLENT")) /\
  (exists lo hi,
      In ("VERY POOR", (lo, hi)) aqi_categories /\
      dict_get aqi_categories "VERY POOR" = Some (lo, hi) /\
      category_analysis frame_50_5 "VERY POOR"
      = OK (filter_band frame_50_5 lo hi, chart_data (filter_band frame_50_5 lo hi))).
Proof.
  destruct (aqi_categories_lookup frame_50_5 "EXCELLENT") as (_ & Hbad & _).
  destruct (aqi_categories_lookup frame_50_5 "VERY POOR") as (_ & _ & Hgood).
  split.
  - apply Hbad. vm_compute. intuition discriminate.
  - apply Hgood. vm_compute. tauto.
Defined.

(** ** The filtered frame *)

(** C3: for a band of [aqi_categories] with bounds [lo] and [hi], the page's
    filtered frame is the frame's rows whose AQI is present with
    [lo <= AQI <= hi], each as often as in the frame and in the frame's
    order; rows without an AQI are in no band, and a frame ascending by
    [Date] gives a filtered frame ascending by [Date]. *)
Theorem filtered_df_exact :
  forall (melted_df : frame Observation) (name : string) (lo hi : float),
    dict_get aqi_categories name = Some (lo, hi) ->
    exists filtered_df chart_data',
      category_analysis melted_df name = OK (filtered_df, chart_data') /\
      filtered_df
      = filter (fun r => negb (isna (AQI (snd r)))
                         && float_le lo (AQI (snd r))
                         && float_le (AQI (snd r)) hi) melted_df /\
      (forall r, In r filtered_df <->
                 In r melted_df /\
                 AQI (snd r) <> NaN /\
                 float_le lo (AQI (snd r)) = true /\
                 float_le (AQI (snd r)) hi = true) /\
      (forall r, AQI (snd r) = NaN -> ~ In r filtered_df) /\
      subseq filtered_df melted_df /\
      (ascending (col_Date melted_df) -> ascending (col_Date filtered_df)).
Proof.
  intros melted_df name lo hi Hget.
  unfold category_analysis. rewrite Hget.
  do 2 eexists. split; [reflexivity |].
  rewrite filter_band_filter.
  assert (Hext : forall r : nat * Observation,
             in_band (AQI (snd r)) (lo, hi)
             = negb (isna (AQI (snd r)))
               && float_le lo (AQI (snd r)) && float_le (AQI (snd r)) hi).
  { intros r. unfold in_band, float_ge; simpl.
    destruct (AQI (snd r)); simpl; try reflexivity; now destruct lo. }
  assert (Hmem : forall r,
             In r (filter (fun r => in_band (AQI (snd r)) (lo, hi)) melted_df) <->
             In r melted_df /\ AQI (snd r) <> NaN /\
             float_le lo (AQI (snd r)) = true /\ float_le (AQI (snd r)) hi = true).
  { intros r. rewrite filter_In. unfold in_band, float_ge; simpl.
    rewrite andb_true_iff. split.
    - intros (Hin & Hlo & Hhi). repeat split; try assumption.
      now apply float_le_not_nan_l in Hhi.
    - tauto. }
  split; [apply filter_ext; exact Hext |].
  split; [exact Hmem |].
  split; [intros r Hnan Hin; apply Hmem in Hin; tauto |].
  split; [apply filter_subseq |].
  intros Hasc. apply Sorted_ascending. apply Sorted_ascending in Hasc.
  unfold col_Date in *. now apply Sorted_filter_map.
Qed.

Lemma filtered_df_exact_witness :
  exists filtered_df chart_data',
    category_analysis frame_50_5 "SATISFACTORY" = OK (filtered_df, chart_data') /\
    filtered_df
    = filter (fun r => negb (isna (AQI (snd r)))
                       && float_le (of_int 51) (AQI (snd r))
                       && float_le (AQI (snd r)) (of_int 100)) frame_50_5 /\
    (forall r, In r filtered_df <->
               In r frame_50_5 /\
               AQI (snd r) <> NaN /\
               float_le (of_int 51) (AQI (snd r)) = true /\
               float_le (AQI (snd r)) (of_int 100) = true) /\
    (forall r, AQI (snd r) = NaN -> ~ In r filtered_df) /\
    subseq filtered_df frame_50_5 /\
    (ascending (col_Date frame_50_5) -> ascending (col_Date filtered_df)).
Proof.
  apply (filtered_df_exact frame_50_5 "SATISFACTORY" (of_int 51) (of_int 100)).
  reflexivity.
Defined.

(** ** The counting table *)

(** C1, as stated, fails: with station A at 40 and station B at 120 in every
    year, the pair (B, 2016) occurs in the loaded frame, but under the band
    GOOD the table has no entry for it, since B is not among its rows. *)
Lemma chart_data_omits_unmatched_location :
  exists melted_df filtered_df chart_data',
    load_data argsort_insertion fs_AB = OK melted_df /\
    category_analysis melted_df "GOOD" = OK (filtered_df, chart_data') /\
    In ("B", 2016%Z) (map (fun r => key_of (snd r)) melted_df) /\
    index chart_data' = ["A"] /\
    chart_get chart_data' "B" 2016 = None.
Proof.
  do 3 eexists. split; [vm_compute; reflexivity |].
  split; [vm_compute; reflexivity |].
  split; [vm_compute; tauto |].
  split; vm_compute; reflexivity.
Qed.

(** C1, amended: the table is built from the filtered frame alone.  Its rows
    are the locations and its columns the years that occur in the filtered
    frame; the entry at such a location and year is the number of filtered
    rows with that pair, which is zero when the pair itself does not occur
    there; a location or a year that does not occur in the filtered frame
    has no row or column, so no entry. *)
Theorem chart_data_entries :
  forall (melted_df : frame Observation) (name : string)
         (filtered_df : frame Observation) (chart_data' : chart)
         (loc : string) (yr : Z),
    category_analysis melted_df name = OK (filtered_df, chart_data') ->
    (In loc (map (fun r => Location (snd r)) filtered_df) ->
     In yr (map (fun r => Year (snd r)) filtered_df) ->
     chart_get chart_data' loc yr = Some (group_size filtered_df (loc, yr))) /\
    (~ In (loc, yr) (map (fun r => key_of (snd r)) filtered_df) ->
     group_size filtered_df (loc, yr) = 0%nat) /\
    (~ In loc (map (fun r => Location (snd r)) filtered_df) ->
     chart_get chart_data' loc yr = None) /\
    (~ In yr (map (fun r => Year (snd r)) filtered_df) ->
     chart_get chart_data' loc yr = None).
Proof.
  intros melted_df name filtered_df chart_data' loc yr H.
  unfold category_analysis in H.
  destruct (dict_get aqi_categories name) as [[lo hi] |]; [| discriminate].
  injection H as <- <-.
  split; [apply chart_get_present |].
  split; [apply group_size_absent |].
  split; [apply chart_get_no_row | apply chart_get_no_column].
Qed.

Lemma chart_data_entries_witness :
  chart_get (chart_data (filter_band frame_two (of_int 0) (of_int 50))) "A" 2017 = Some 0%nat /\
  chart_get (chart_data (filter_band frame_two (of_int 0) (of_int 50))) "C" 2017 = None.
Proof.
  pose proof (chart_data_entries frame_two "GOOD"
                (filter_band frame_two (of_int 0) (of_int 50))
                (chart_data (filter_band frame_two (of_int 0) (of_int 50)))) as H.
  split.
  - destruct (H "A" 2017%Z eq_refl) as (Hcount & Hzero & _).
    rewrite Hcount.
    + rewrite Hzero; [reflexivity |].
      vm_compute. intros [E | [E | []]]; discriminate.
    + vm_compute. tauto.
    + vm_compute. tauto.
  - destruct (H "C" 2017%Z eq_refl) as (_ & _ & Hrow & _).
    apply Hrow. vm_compute. intros [E | [E | []]]; discriminate.
Defined.

(** ** Reordering by an indexer *)

Lemma take_map {A B : Type} (f : A -> B) (l : list A) (ix : list nat) :
  map f (take l ix) = take (map f l) ix.
Proof.
  unfold take. induction ix as [| i ix IH]; simpl; [reflexivity |].
  rewrite map_app, IH, nth_error_map.
  now destruct (nth_error l i).
Qed.

Lemma take_In {A : Type} (l : list A) (ix : list nat) (x : A) :
  In x (take l ix) -> In x l.
Proof.
  unfold take. rewrite in_flat_map. intros (i & _ & Hx).
  destruct (nth_error l i) eqn:E; simpl in Hx; [| tauto].
  destruct Hx as [<- | []]. eapply nth_error_In; eassumption.
Qed.

Lemma take_seq_app {A : Type} (l pre : list A) :
  take (pre ++ l) (seq (List.length pre) (List.length l)) = l.
Proof.
  revert pre. induction l as [| x l IH]; intros pre; simpl; [reflexivity |].
  rewrite nth_error_app2, Nat.sub_diag by lia. simpl. f_equal.
  specialize (IH (pre ++ [x])).
  rewrite <- app_assoc, length_app in IH. simpl in IH.
  rewrite Nat.add_1_r in IH. exact IH.
Qed.

Lemma take_seq {A : Type} (l : list A) : take l (seq 0 (List.length l)) = l.
Proof. exact (take_seq_app l []). Qed.

Lemma take_Permutation {A : Type} (l : list A) (ix : list nat) :
  Permutation ix (seq 0 (List.length l)) -> Permutation (take l ix) l.
Proof.
  intros H. rewrite <- (take_seq l) at 2.
  unfold take. now apply Permutation_flat_map.
Qed.


Lemma take_fst_snd (keys : list Timestamp) (l : list (nat * Timestamp)) :
  (forall p, In p l -> nth_error keys (fst p) = Some (snd p)) ->
  take keys (map fst l) = map snd l.
Proof.
  unfold take. induction l as [| p l IH]; intros H; simpl; [reflexivity |].
  rewrite (H p) by now left. simpl. f_equal.
  apply IH. intros q Hq. apply H. now right.
Qed.

(** ** The fresh index *)

Lemma combine_seq_nth {A : Type} (l : list A) (s i : nat) (x : A) :
  In (i, x) (combine (seq s (List.length l)) l) ->
  (s <= i)%nat /\ nth_error l (i - s) = Some x.
Proof.
  revert s. induction l as [| y l IH]; intros s; simpl; [tauto |].
  intros [E | H].
  - injection E as <- <-. rewrite Nat.sub_diag. split; [lia | reflexivity].
  - apply IH in H. destruct H as [Hle Hn]. split; [lia |].
    replace (i - s)%nat with (S (i - S s)) by lia. exact Hn.
Qed.

Lemma reset_index_nth {A : Type} (l : list A) (p : nat * A) :
  In p (pd.reset_index l) -> nth_error l (fst p) = Some (snd p).
Proof.
  destruct p as [i x]. unfold pd.reset_index. intros H.
  apply combine_seq_nth in H. simpl. now rewrite Nat.sub_0_r in H.
Qed.

Lemma map_fst_combine_seq {A : Type} (l : list A) (s : nat) :
  map fst (combine (seq s (List.length l)) l) = seq s (List.length l).
Proof.
  revert s. induction l as [| x l IH]; intros s; simpl; [reflexivity |].
  now rewrite IH.
Qed.

Lemma map_snd_combine_seq {A : Type} (l : list A) (s : nat) :
  map snd (combine (seq s (List.length l)) l) = l.
Proof.
  revert s. induction l as [| x l IH]; intros s; simpl; [reflexivity |].
  now rewrite IH.
Qed.

Lemma map_fst_reset_index {A : Type} (l : list A) :
  map fst (pd.reset_index l) = seq 0 (List.length l).
Proof. apply map_fst_combine_seq. Qed.

Lemma map_snd_reset_index {A : Type} (l : list A) :
  map snd (pd.reset_index l) = l.
Proof. apply map_snd_combine_seq. Qed.

Lemma length_reset_index {A : Type} (l : list A) :
  List.length (pd.reset_index l) = List.length l.
Proof.
  unfold pd.reset_index. rewrite length_combine, length_seq. lia.
Qed.

(** ** The two sorting routines keep the promise of [argsort] *)

Section InsertionSort.

Variable before : Timestamp -> Timestamp -> bool.
Hypothesis before_le : forall a b, before a b = true -> ts_le a b.
Hypothesis not_before_ge : forall a b, before a b = false -> ts_le b a.

Lemma insert_by_Permutation (x : nat * Timestamp) (l : list (nat * Timestamp)) :
  Permutation (insert_by before x l) (x :: l).
Proof.
  induction l as [| y l IH]; simpl; [reflexivity |].
  destruct (before (snd x) (snd y)); [reflexivity |].
  rewrite IH. apply perm_swap.
Qed.

Lemma insert_by_Sorted (x : nat * Timestamp) (l : list (nat * Timestamp)) :
  Sorted key_le l -> Sorted key_le (insert_by before x l).
Proof.
  induction 1 as [| y l Hs IH Hd]; simpl.
  - repeat constructor.
  - destruct (before (snd x) (snd y)) eqn:E.
    + constructor; [now constructor |].
      constructor. now apply before_le.
    + constructor; [exact IH |].
      destruct l as [| z l]; simpl.
      * constructor. now apply not_before_ge.
      * destruct (before (snd x) (snd z)).
        -- constructor. now apply not_before_ge.
        -- constructor. now inversion Hd.
Qed.

Lemma isort_Permutation (l : list (nat * Timestamp)) :
  Permutation (fold_right (insert_by before) [] l) l.
Proof.
  induction l as [| x l IH]; simpl; [reflexivity |].
  rewrite insert_by_Permutation. now constructor.
Qed.

Lemma isort_Sorted (l : list (nat * Timestamp)) :
  Sorted key_le (fold_right (insert_by before) [] l).
Proof.
  induction l as [| x l IH]; simpl; [constructor |].
  now apply insert_by_Sorted.
Qed.

Lemma Sorted_map_snd (l : list (nat * Timestamp)) :
  Sorted key_le l -> Sorted ts_le (map snd l).
Proof.
  induction 1 as [| x l Hs IH Hd]; simpl; constructor; [exact IH |].
  destruct Hd; simpl; constructor. assumption.
Qed.

Lemma argsort_by_spec : argsort_spec (argsort_by before).
Proof.
  intros keys. unfold argsort_by. split.
  - rewrite <- map_fst_reset_index.
    apply Permutation_map, isort_Permutation.
  - rewrite take_fst_snd.
    + apply Sorted_map_snd, isort_Sorted.
    + intros p Hp. apply reset_index_nth.
      eapply Permutation_in; [apply isort_Permutation | exact Hp].
Qed.

End InsertionSort.

Lemma argsort_insertion_spec : argsort_spec argsort_insertion.
Proof.
  apply argsort_by_spec.
  - intros a b H. exact H.
  - apply ts_leb_false_le.
Qed.

Lemma argsort_ties_reversed_spec : argsort_spec argsort_ties_reversed.
Proof.
  apply argsort_by_spec.
  - apply ts_ltb_true_le.
  - apply ts_ltb_false_le.
Qed.

(** *** The insertion routine is stable *)





(** ** Date strings *)

Lemma years_cases (y : Z) :
  In y years ->
  (y = 2016 \/ y = 2017 \/ y = 2018 \/ y = 2019 \/
   y = 2020 \/ y = 2021 \/ y = 2022 \/ y = 2023)%Z.
Proof.
  unfold years, range. simpl. intuition.
Qed.

Lemma NoDup_years : NoDup years.
Proof.
  unfold years, range. simpl.
  repeat constructor; simpl; intuition discriminate.
Qed.

(** For a year of the range, the date string parses exactly when [%b] knows
    the month, and then gives the first day of that month of that year. *)
Lemma strptime_date_string (y : Z) (m : string) :
  In y years ->
  strptime (str y ++ "-" ++ m)
  = option_map (fun k => mkTimestamp y k 1) (parse_b m).
Proof.
  intros Hy. apply years_cases in Hy.
  repeat (destruct Hy as [-> | Hy]); [.. | subst y];
    (cbn; now destruct (parse_b m)).
Qed.

(** ** Reading the yearly files *)

Lemma read_years_cons (fs : filesystem) (y : Z) (ys : list Z) :
  read_years fs (y :: ys)
  = match fs (file_path y) with
    | Some t =>
        match read_years fs ys with
        | OK dfs => OK (tag_year t y :: dfs)
        | Error e => Error e
        end
    | None => Error (MissingSourceError (file_path y))
    end.
Proof.
  unfold read_years. cbn [mapM]. unfold pd.read_csv.
  destruct (fs (file_path y)); reflexivity.
Qed.

Lemma read_years_inv (fs : filesystem) (ys : list Z) (dfs : list wide_frame) :
  read_years fs ys = OK dfs ->
  Forall2 (fun y df => exists t, fs (file_path y) = Some t /\ df = tag_year t y) ys dfs.
Proof.
  revert dfs. induction ys as [| y ys IH]; intros dfs.
  - intros [= <-]. constructor.
  - rewrite read_years_cons.
    destruct (fs (file_path y)) as [t |] eqn:E; [| discriminate].
    destruct (read_years fs ys) as [dfs' |]; [| discriminate].
    intros [= <-]. constructor; [now exists t | now apply IH].
Qed.

Lemma read_years_total (fs : filesystem) (ys : list Z) :
  (forall y, In y ys -> fs (file_path y) <> None) ->
  exists dfs, read_years fs ys = OK dfs.
Proof.
  induction ys as [| y ys IH]; intros H.
  - now exists [].
  - rewrite read_years_cons.
    destruct (fs (file_path y)) as [t |] eqn:E; [| exfalso; apply (H y); simpl; tauto].
    destruct IH as (dfs & ->); [intros z Hz; apply H; now right |].
    eexists. reflexivity.
Qed.

Section Sources.

Variable fs : filesystem.

(** Every row of the concatenation is a row of the file of its year. *)
Lemma concat_row_origin (ys : list Z) (dfs : list wide_frame) (wr : wide_row) :
  Forall2 (tagged fs) ys dfs ->
  In wr (flat_map w_rows dfs) ->
  In (w_Year wr) ys /\
  exists t row,
    fs (file_path (w_Year wr)) = Some t /\ In row (rows t) /\
    wr = mkWide (fst row) (w_Year wr) (named_cells (locations t) (snd row)).
Proof.
  induction 1 as [| y df ys dfs (t & Ht & ->) _ IH]; simpl; [tauto |].
  rewrite in_app_iff. intros [Hin | Hin].
  - apply in_map_iff in Hin. destruct Hin as (row & <- & Hrow). simpl.
    split; [now left |]. now exists t, row.
  - destruct (IH Hin) as (Hy & Hex). split; [now right | exact Hex].
Qed.


(** The rows of one year, when the years are distinct. *)
Lemma concat_rows_of_year (ys : list Z) (dfs : list wide_frame)
  (y : Z) (t : RawYearTable) :
  Forall2 (tagged fs) ys dfs ->
  NoDup ys -> In y ys -> fs (file_path y) = Some t ->
  filter (fun wr => (w_Year wr =? y)%Z) (flat_map w_rows dfs) = w_rows (tag_year t y).
Proof.
  assert (Hall : forall (z : Z) (t' : RawYearTable),
             filter (fun wr => (w_Year wr =? y)%Z) (w_rows (tag_year t' z))
             = if (z =? y)%Z then w_rows (tag_year t' z) else []).
  { intros z t'. simpl. induction (rows t') as [| r l IHl]; simpl.
    - now destruct (z =? y)%Z.
    - rewrite IHl. now destruct (z =? y)%Z. }
  assert (Hnone : forall ys dfs, Forall2 (tagged fs) ys dfs -> ~ In y ys ->
             filter (fun wr => (w_Year wr =? y)%Z) (flat_map w_rows dfs) = []).
  { induction 1 as [| y' df ys' dfs' (t' & Ht' & ->) _ IH]; intros Hout; [reflexivity |].
    cbn [flat_map]. rewrite filter_app, Hall, IH by (simpl in Hout; tauto).
    destruct (Z.eqb_spec y' y); [subst; simpl in Hout; tauto | reflexivity]. }
  induction 1 as [| y' df ys dfs (t' & Ht' & ->) Hrest IH]; intros Hnd Hy Ht; [destruct Hy |].
  cbn [flat_map]. rewrite filter_app, Hall.
  inversion Hnd as [| ? ? Hnotin Hnd']; subst.
  destruct (Z.eqb_spec y' y) as [-> | Hne].
  - rewrite Ht in Ht'. injection Ht' as <-.
    rewrite (Hnone ys dfs Hrest Hnotin). apply app_nil_r.
  - destruct Hy as [-> | Hy]; [congruence |].
    simpl. now apply IH.
Qed.

End Sources.

(** ** The union of the columns *)

Lemma existsb_eqb_In (c : string) (acc : list string) :
  existsb (String.eqb c) acc = true <-> In c acc.
Proof.
  rewrite existsb_exists. split.
  - intros (x & Hx & E). apply String.eqb_eq in E. now subst.
  - intros H. exists c. split; [exact H | apply String.eqb_refl].
Qed.

Lemma add_column_In (acc : list string) (c x : string) :
  In x (pd.add_column acc c) <-> x = c \/ In x acc.
Proof.
  unfold pd.add_column. destruct (existsb (String.eqb c) acc) eqn:E.
  - apply existsb_eqb_In in E. split; [tauto |]. intros [-> | H]; assumption.
  - rewrite in_app_iff. simpl. intuition.
Qed.

Lemma add_column_NoDup (acc : list string) (c : string) :
  NoDup acc -> NoDup (pd.add_column acc c).
Proof.
  intros H. unfold pd.add_column. destruct (existsb (String.eqb c) acc) eqn:E; [exact H |].
  assert (Hout : ~ In c acc).
  { intros Hin. apply existsb_eqb_In in Hin. congruence. }
  eapply Permutation_NoDup; [apply Permutation_cons_append |].
  now constructor.
Qed.

Lemma add_columns_In (cs acc : list string) (x : string) :
  In x (fold_left pd.add_column cs acc) <-> In x cs \/ In x acc.
Proof.
  revert acc. induction cs as [| c cs IH]; intros acc; simpl; [tauto |].
  rewrite IH, add_column_In. intuition.
Qed.

Lemma add_columns_NoDup (cs acc : list string) :
  NoDup acc -> NoDup (fold_left pd.add_column cs acc).
Proof.
  revert acc. induction cs as [| c cs IH]; intros acc H; simpl; [exact H |].
  apply IH, add_column_NoDup, H.
Qed.

Lemma union_columns_from_In (dfs : list wide_frame) (acc : list string) (x : string) :
  In x (fold_left (fun acc df => fold_left pd.add_column (w_locations df) acc) dfs acc)
  <-> (exists df, In df dfs /\ In x (w_locations df)) \/ In x acc.
Proof.
  revert acc. induction dfs as [| df dfs IH]; intros acc; simpl.
  - split; [tauto | intros [(df & [] & _) | H]; exact H].
  - rewrite IH, add_columns_In. split.
    + intros [(df' & Hdf' & Hx) | [Hx | Hx]].
      * left. exists df'. tauto.
      * left. exists df. tauto.
      * now right.
    + intros [(df' & [<- | Hdf'] & Hx) | Hx].
      * right. now left.
      * left. now exists df'.
      * right. now right.
Qed.

Lemma union_columns_In (dfs : list wide_frame) (x : string) :
  In x (pd.union_columns dfs) <-> exists df, In df dfs /\ In x (w_locations df).
Proof.
  unfold pd.union_columns. rewrite union_columns_from_In. simpl. tauto.
Qed.

Lemma union_columns_NoDup (dfs : list wide_frame) : NoDup (pd.union_columns dfs).
Proof.
  unfold pd.union_columns.
  assert (H : forall acc, NoDup acc ->
            NoDup (fold_left (fun acc df => fold_left pd.add_column (w_locations df) acc) dfs acc)).
  { induction dfs as [| df dfs IH]; intros acc Hacc; simpl; [exact Hacc |].
    apply IH, add_columns_NoDup, Hacc. }
  apply H. constructor.
Qed.

(** ** Melting and dating *)

Lemma melt_In (wf : wide_frame) (p : nat * melted_row) :
  In p (pd.melt wf) ->
  exists loc wr,
    In loc (w_locations wf) /\ In wr (w_rows wf) /\
    snd p = mkMelted (w_Month wr) (w_Year wr) loc (cell wr loc).
Proof.
  intros H. apply (in_map snd) in H.
  unfold pd.melt in H. rewrite map_snd_reset_index in H.
  apply in_flat_map in H. destruct H as (loc & Hloc & H).
  apply in_map_iff in H. destruct H as (wr & <- & Hwr).
  now exists loc, wr.
Qed.

Lemma to_datetime_from_OK (pos : nat) (col : list string) (ts : list Timestamp) :
  pd.to_datetime_from pos col = OK ts ->
  Forall2 (fun s t => strptime s = Some t) col ts.
Proof.
  revert pos ts. induction col as [| s col IH]; intros pos ts; cbn [pd.to_datetime_from].
  - intros [= <-]. constructor.
  - destruct (strptime s) as [t |] eqn:E; [| discriminate].
    destruct (pd.to_datetime_from (S pos) col) as [ts' |] eqn:E'; cbn [bind]; [| discriminate].
    intros [= <-]. constructor; [exact E | eapply IH; exact E'].
Qed.

Lemma to_datetime_from_total (pos : nat) (col : list string) :
  (forall s, In s col -> strptime s <> None) ->
  exists ts, pd.to_datetime_from pos col = OK ts.
Proof.
  revert pos. induction col as [| s col IH]; intros pos H; cbn [pd.to_datetime_from].
  - now exists [].
  - destruct (strptime s) as [t |] eqn:E; [| exfalso; apply (H s); simpl; tauto].
    destruct (IH (S pos)) as (ts & ->); [intros s' Hs'; apply H; now right |].
    cbn [bind]. eexists. reflexivity.
Qed.


Lemma assign_Date_dated (mdf : frame melted_row) (ts : list Timestamp) :
  Forall2 (fun s t => strptime s = Some t) (date_strings mdf) ts ->
  Forall2 dated mdf (assign_Date mdf ts).
Proof.
  revert ts. induction mdf as [| [i r] mdf IH]; intros ts H; simpl in *.
  - constructor.
  - inversion H as [| s t col ts' Hs Hrest]; subst.
    constructor; [| now apply IH].
    unfold dated; simpl. repeat split. exact Hs.
Qed.

Lemma Forall2_In_r {A B : Type} (R : A -> B -> Prop) (l : list A) (l' : list B) (y : B) :
  Forall2 R l l' -> In y l' -> exists x, In x l /\ R x y.
Proof.
  induction 1 as [| a b l l' Hab _ IH]; simpl; [tauto |].
  intros [<- | Hy].
  - exists a. tauto.
  - destruct (IH Hy) as (x & Hx & Hr). exists x. tauto.
Qed.

Lemma Forall2_In_l {A B : Type} (R : A -> B -> Prop) (l : list A) (l' : list B) (x : A) :
  Forall2 R l l' -> In x l -> exists y, In y l' /\ R x y.
Proof.
  induction 1 as [| a b l l' Hab _ IH]; simpl; [tauto |].
  intros [<- | Hx].
  - exists b. tauto.
  - destruct (IH Hx) as (y & Hy & Hr). exists y. tauto.
Qed.

Lemma dated_labels (mdf : frame melted_row) (df : frame Observation) :
  Forall2 dated mdf df -> map fst df = map fst mdf.
Proof.
  induction 1 as [| p o mdf df Hpo _ IH]; simpl; [reflexivity |].
  destruct Hpo as (-> & _). now rewrite IH.
Qed.

(** ** The steps of [load_data] *)

Lemma load_data_OK_inv (argsort : list Timestamp -> list nat)
  (fs : filesystem) (df : frame Observation) :
  load_data argsort fs = OK df ->
  exists dfs ts,
    read_years fs years = OK dfs /\
    pd.to_datetime (date_strings (pd.melt (pd.concat dfs))) = OK ts /\
    df = sort_values argsort (assign_Date (pd.melt (pd.concat dfs)) ts).
Proof.
  unfold load_data. fold (read_years fs years).
  destruct (read_years fs years) as [dfs |]; cbn [bind]; [| discriminate].
  destruct (pd.to_datetime (date_strings (pd.melt (pd.concat dfs)))) as [ts |] eqn:E;
    cbn [bind]; [| discriminate].
  intros [= <-]. exists dfs, ts. repeat split. exact E.
Qed.



(** What [load_data] puts in each row it returns. *)
Lemma load_data_row (argsort : list Timestamp -> list nat)
  (fs : filesystem) (df : frame Observation) (p : nat * Observation) :
  load_data argsort fs = OK df ->
  In p df ->
  In (Year (snd p)) years /\
  exists k t row,
    parse_b (Month (snd p)) = Some k /\
    Date (snd p) = mkTimestamp (Year (snd p)) k 1 /\
    fs (file_path (Year (snd p))) = Some t /\
    In row (rows t) /\
    Month (snd p) = fst row /\
    AQI (snd p) = cell (mkWide (fst row) (Year (snd p))
                               (named_cells (locations t) (snd row)))
                       (Location (snd p)).
Proof.
  intros Hload Hp.
  destruct (load_data_OK_inv _ _ _ Hload) as (dfs & ts & Hread & Hdates & ->).
  apply take_In in Hp.
  apply to_datetime_from_OK, assign_Date_dated in Hdates.
  destruct (Forall2_In_r _ _ _ _ Hdates Hp) as (q & Hq & Hdated).
  destruct (melt_In _ _ Hq) as (loc & wr & Hloc & Hwr & Eq).
  apply read_years_inv in Hread.
  destruct (concat_row_origin fs years dfs wr Hread Hwr) as (Hy & t & row & Ht & Hrow & Ewr).
  destruct Hdated as (_ & EM & EY & EL & EA & ED).
  rewrite Eq in EM, EY, EL, EA, ED.
  cbn [m_Month m_Year m_Location m_AQI] in EM, EY, EL, EA, ED.
  rewrite strptime_date_string in ED by exact Hy.
  rewrite EY. split; [exact Hy |].
  destruct (parse_b (w_Month wr)) as [k |] eqn:Ek; [| discriminate].
  simpl in ED. injection ED as ED.
  exists k, t, row. rewrite EM, EL, EA, Ek, <- ED.
  rewrite Ewr at 2 4. simpl.
  repeat split; try assumption. now rewrite Ewr.
Qed.


Lemma length_col_Date (df : frame Observation) :
  List.length (col_Date df) = List.length df.
Proof. apply length_map. Qed.

Lemma sort_values_Permutation (argsort : list Timestamp -> list nat)
  (df : frame Observation) :
  argsort_spec argsort -> Permutation (sort_values argsort df) df.
Proof.
  intros Hspec. unfold sort_values. apply take_Permutation.
  rewrite <- length_col_Date. apply Hspec.
Qed.

Lemma sort_values_ascending (argsort : list Timestamp -> list nat)
  (df : frame Observation) :
  argsort_spec argsort -> ascending (col_Date (sort_values argsort df)).
Proof.
  intros Hspec. apply Sorted_ascending.
  unfold sort_values, col_Date. rewrite take_map. apply Hspec.
Qed.

(** ** The loaded frame is in date order *)



(** ** Rows of equal date *)




(** ** The derived date *)



(** ** Loading twice *)




(** ** A month that [%b] does not know *)





(** ** Twelve rows for every year and location *)

Lemma Permutation_filter {A : Type} (f : A -> bool) (l l' : list A) :
  Permutation l l' -> Permutation (filter f l) (filter f l').
Proof.
  induction 1 as [| x l l' _ IH | x y l | l l' l'' _ IH1 _ IH2]; simpl.
  - constructor.
  - destruct (f x); [now constructor | exact IH].
  - destruct (f x), (f y); try reflexivity. apply perm_swap.
  - now transitivity (filter f l').
Qed.

Lemma Forall2_filter {A B : Type} (R : A -> B -> Prop)
  (f : A -> bool) (g : B -> bool) (l : list A) (l' : list B) :
  (forall x y, R x y -> f x = g y) ->
  Forall2 R l l' -> Forall2 R (filter f l) (filter g l').
Proof.
  intros Hfg. induction 1 as [| x y l l' Hxy _ IH]; simpl; [constructor |].
  rewrite <- (Hfg x y Hxy). destruct (f x); [now constructor | exact IH].
Qed.

Lemma Forall2_map_eq {A B C : Type} (R : A -> B -> Prop)
  (f : A -> C) (g : B -> C) (l : list A) (l' : list B) :
  (forall x y, R x y -> f x = g y) ->
  Forall2 R l l' -> map f l = map g l'.
Proof.
  intros Hfg. induction 1 as [| x y l l' Hxy _ IH]; simpl; [reflexivity |].
  now rewrite (Hfg x y Hxy), IH.
Qed.

Lemma filter_map_snd {A B : Type} (f : B -> bool) (l : list (A * B)) :
  map snd (filter (fun p => f (snd p)) l) = filter f (map snd l).
Proof.
  induction l as [| p l IH]; simpl; [reflexivity |].
  destruct (f (snd p)); simpl; now rewrite IH.
Qed.

Lemma named_cells_absent (names : list string) (cells : list float) (loc : string) :
  ~ In loc names -> dict_get (named_cells names cells) loc = None.
Proof.
  revert cells. induction names as [| n names IH]; intros cells H; simpl; [reflexivity |].
  destruct (String.eqb_spec n loc) as [-> | Hne]; [simpl in H; tauto |].
  apply IH. simpl in H. tauto.
Qed.

(** The melted rows of one location and one year are the rows of that year,
    in their order, under that location. *)
Lemma melted_rows_of (cols : list string) (R : list wide_row) (L : string) (Y : Z) :
  NoDup cols -> In L cols ->
  filter (fun r => (m_Year r =? Y)%Z && String.eqb (m_Location r) L)
         (flat_map (fun loc =>
                      map (fun r => mkMelted (w_Month r) (w_Year r) loc (cell r loc)) R)
                   cols)
  = map (fun r => mkMelted (w_Month r) (w_Year r) L (cell r L))
        (filter (fun wr => (w_Year wr =? Y)%Z) R).
Proof.
  assert (Hchunk : forall loc,
             filter (fun r => (m_Year r =? Y)%Z && String.eqb (m_Location r) L)
                    (map (fun r => mkMelted (w_Month r) (w_Year r) loc (cell r loc)) R)
             = if String.eqb loc L
               then map (fun r => mkMelted (w_Month r) (w_Year r) loc (cell r loc))
                        (filter (fun wr => (w_Year wr =? Y)%Z) R)
               else []).
  { intros loc. induction R as [| r R IH]; simpl.
    - now destruct (String.eqb loc L).
    - rewrite IH. destruct (w_Year r =? Y)%Z, (String.eqb loc L); reflexivity. }
  assert (Hnone : forall cols, ~ In L cols ->
             filter (fun r => (m_Year r =? Y)%Z && String.eqb (m_Location r) L)
                    (flat_map (fun loc =>
                                 map (fun r => mkMelted (w_Month r) (w_Year r) loc (cell r loc)) R)
                              cols) = []).
  { intros cs. induction cs as [| c cs IH]; intros Hout; [reflexivity |].
    cbn [flat_map]. rewrite filter_app, Hchunk, IH by (simpl in Hout; tauto).
    destruct (String.eqb_spec c L); [subst; simpl in Hout; tauto | reflexivity]. }
  induction cols as [| c cols IH]; intros Hnd Hin; [destruct Hin |].
  cbn [flat_map]. rewrite filter_app, Hchunk.
  inversion Hnd as [| ? ? Hnotin Hnd']; subst.
  destruct (String.eqb_spec c L) as [-> | Hne].
  - rewrite (Hnone cols Hnotin). apply app_nil_r.
  - destruct Hin as [-> | Hin]; [congruence |].
    simpl. now apply IH.
Qed.

(** C4: when every yearly file is there and has one row for each calendar
    month, [load_data] returns a frame in which, for every year [Y] of the
    range and every location [L] that is a column of any of the files, there
    are exactly twelve rows with that [Year] and [Location], one for each
    month, dated the first of their month; when [L] is not a column of the
    file of [Y], the twelve rows are there with a missing AQI. *)
Theorem load_data_complete :
  forall (argsort : list Timestamp -> list nat) (fs : filesystem),
    argsort_spec argsort ->
    (forall y, In y years ->
       exists t, fs (file_path y) = Some t /\ twelve_months t) ->
    exists df,
      load_data argsort fs = OK df /\
      forall (Y : Z) (L : string),
        In Y years ->
        (exists Y1 t1,
            In Y1 years /\ fs (file_path Y1) = Some t1 /\ In L (locations t1)) ->
        let sel := filter (fun p => (Year (snd p) =? Y)%Z
                                    && String.eqb (Location (snd p)) L) df in
        List.length sel = 12%nat /\
        Permutation (map (fun p => ts_month (Date (snd p))) sel) (seq 1 12) /\
        (forall p, In p sel ->
           Date (snd p) = mkTimestamp Y (month_number (Month (snd p))) 1) /\
        (forall t, fs (file_path Y) = Some t -> ~ In L (locations t) ->
           forall p, In p sel -> AQI (snd p) = NaN).
Proof.
  intros argsort fs Hspec Hsrc.
  assert (Hfiles : forall y, In y years -> fs (file_path y) <> None).
  { intros y Hy. destruct (Hsrc y Hy) as (t & -> & _). discriminate. }
  destruct (read_years_total fs years Hfiles) as (dfs & Hread).
  pose proof (read_years_inv fs years dfs Hread) as Htag.
  set (mdf := pd.melt (pd.concat dfs)).
  (* every row of every file names a month *)
  assert (Hmonth : forall y t row,
             In y years -> fs (file_path y) = Some t -> In row (rows t) ->
             parse_b (fst row) = Some (month_number (fst row))).
  { intros y t row Hy Ht Hrow.
    destruct (Hsrc y Hy) as (t' & Ht' & H12). rewrite Ht in Ht'. injection Ht' as <-.
    assert (Hin : In (parse_b (fst row)) (map Some (seq 1 12))).
    { eapply Permutation_in; [exact H12 |].
      apply in_map_iff. now exists row. }
    apply in_map_iff in Hin. destruct Hin as (k & Hk & _).
    unfold month_number. now rewrite <- Hk. }
  (* so every date string parses *)
  assert (Hparse : forall s, In s (date_strings mdf) -> strptime s <> None).
  { intros s Hs. unfold date_strings in Hs. apply in_map_iff in Hs.
    destruct Hs as (p & <- & Hp).
    destruct (melt_In _ _ Hp) as (loc & wr & _ & Hwr & ->).
    cbn [m_Year m_Month].
    destruct (concat_row_origin fs years dfs wr Htag Hwr)
      as (Hy & t & row & Ht & Hrow & Ewr).
    rewrite strptime_date_string by exact Hy.
    rewrite Ewr. cbn [w_Month]. rewrite (Hmonth _ _ _ Hy Ht Hrow). discriminate. }
  destruct (to_datetime_from_total 0 _ Hparse) as (ts & Hdates).
  set (D := assign_Date mdf ts).
  assert (Hload : load_data argsort fs = OK (sort_values argsort D)).
  { unfold load_data. fold (read_years fs years). rewrite Hread. cbn [bind].
    fold mdf. unfold pd.to_datetime. rewrite Hdates. reflexivity. }
  exists (sort_values argsort D). split; [exact Hload |].
  intros Y L HY (Y1 & t1 & HY1 & Ht1 & HL) sel.
  destruct (Hsrc Y HY) as (t & Ht & H12).
  pose proof (assign_Date_dated mdf ts (to_datetime_from_OK _ _ _ Hdates)) as Hdated.
  (* the rows selected before the sort *)
  set (pred := fun p : nat * Observation =>
                 (Year (snd p) =? Y)%Z && String.eqb (Location (snd p)) L) in *.
  set (predM := fun r : melted_row =>
                  (m_Year r =? Y)%Z && String.eqb (m_Location r) L).
  assert (Hperm : Permutation sel (filter pred D)).
  { apply Permutation_filter, sort_values_Permutation, Hspec. }
  assert (Hsel : Forall2 dated (filter (fun p => predM (snd p)) mdf) (filter pred D)).
  { apply Forall2_filter; [| exact Hdated].
    intros p o (_ & _ & EY & EL & _). unfold pred, predM. now rewrite EY, EL. }
  assert (HM : map snd (filter (fun p => predM (snd p)) mdf)
               = map (fun r => mkMelted (fst r) Y L
                                 (cell (mkWide (fst r) Y (named_cells (locations t) (snd r))) L))
                     (rows t)).
  { rewrite filter_map_snd. unfold mdf, pd.melt. rewrite map_snd_reset_index.
    unfold predM. cbn [pd.concat w_rows w_locations].
    rewrite melted_rows_of.
    - rewrite (concat_rows_of_year fs years dfs Y t Htag NoDup_years HY Ht).
      cbn [tag_year w_rows]. rewrite map_map. reflexivity.
    - apply union_columns_NoDup.
    - apply union_columns_In.
      destruct (Forall2_In_l _ _ _ _ Htag HY1) as (df1 & Hdf1 & t1' & Ht1' & ->).
      rewrite Ht1 in Ht1'. injection Ht1' as <-.
      exists (tag_year t1 Y1). split; [exact Hdf1 | exact HL]. }
  assert (Hlen : List.length (rows t) = 12%nat).
  { apply Permutation_length in H12. now rewrite !length_map, length_seq in H12. }
  (* what a selected row holds *)
  assert (Hrow : forall o, In o (filter pred D) ->
             exists row, In row (rows t) /\
               Month (snd o) = fst row /\ Year (snd o) = Y /\
               Date (snd o) = mkTimestamp Y (month_number (fst row)) 1 /\
               AQI (snd o) = cell (mkWide (fst row) Y (named_cells (locations t) (snd row))) L).
  { intros o Ho.
    destruct (Forall2_In_r _ _ _ _ Hsel Ho) as (p & Hp & _ & EM & EY & _ & EA & ED).
    apply (in_map snd) in Hp. rewrite HM in Hp. apply in_map_iff in Hp.
    destruct Hp as (row & Ep & Hrow). exists row.
    rewrite <- Ep in EM, EY, EA, ED. cbn [m_Month m_Year m_AQI] in EM, EY, EA, ED.
    rewrite strptime_date_string in ED by exact HY.
    rewrite (Hmonth Y t row HY Ht Hrow) in ED. cbn [option_map] in ED.
    injection ED as ED. repeat split; try assumption. now symmetry. }
  split; [| split; [| split]].
  - rewrite (Permutation_length Hperm).
    rewrite <- (Forall2_length Hsel), <- (length_map snd), HM, length_map. exact Hlen.
  - rewrite (Permutation_map _ Hperm).
    assert (E : map (fun o => ts_month (Date (snd o))) (filter pred D)
                = map (fun row => month_number (fst row)) (rows t)).
    { transitivity (map (fun o : nat * Observation => month_number (Month (snd o)))
                        (filter pred D)).
      { apply map_ext_in. intros o Ho.
        destruct (Hrow o Ho) as (row & _ & EM & _ & ED & _). now rewrite ED, EM. }
      transitivity (map (fun r => month_number (m_Month r))
                        (map snd (filter (fun p => predM (snd p)) mdf))).
      { rewrite map_map. symmetry.
        apply (Forall2_map_eq dated); [| exact Hsel].
        intros p o (_ & EM & _). now rewrite EM. }
      rewrite HM, map_map. reflexivity. }
    rewrite E.
    apply (Permutation_map (fun o => match o with Some k => k | None => 0%nat end)) in H12.
    rewrite !map_map in H12. rewrite map_id in H12. exact H12.
  - intros o Ho. eapply Permutation_in in Ho; [| exact Hperm].
    destruct (Hrow o Ho) as (row & _ & EM & _ & ED & _). now rewrite EM.
  - intros t' Ht' Hout o Ho. rewrite Ht in Ht'. injection Ht' as <-.
    eapply Permutation_in in Ho; [| exact Hperm].
    destruct (Hrow o Ho) as (row & _ & _ & _ & _ & EA).
    rewrite EA. unfold cell. cbn [w_cells].
    now rewrite named_cells_absent.
Qed.

Lemma load_data_complete_witness :
  exists df,
    load_data argsort_insertion fs_12 = OK df /\
    let sel := filter (fun p => (Year (snd p) =? 2017)%Z
                                && String.eqb (Location (snd p)) "B") df in
    List.length sel = 12%nat /\
    Permutation (map (fun p => ts_month (Date (snd p))) sel) (seq 1 12) /\
    (forall p, In p sel ->
       Date (snd p) = mkTimestamp 2017 (month_number (Month (snd p))) 1) /\
    (forall p, In p sel -> AQI (snd p) = NaN).
Proof.
  destruct (load_data_complete argsort_insertion fs_12 argsort_insertion_spec)
    as (df & Hload & Hall).
  - intros y Hy. apply years_cases in Hy.
    repeat (destruct Hy as [-> | Hy]); [.. | subst y];
      (eexists; split; [reflexivity | vm_compute; reflexivity]).
  - exists df. split; [exact Hload |].
    destruct (Hall 2017%Z "B") as (Hlen & Hmonths & Hdate & Hnan).
    + vm_compute. tauto.
    + exists 2016%Z, table_AB12. split; [vm_compute; tauto |].
      split; [reflexivity | vm_compute; tauto].
    + repeat split; try assumption.
      apply (Hnan table_A12); [reflexivity |].
      vm_compute. intros [E | []]. discriminate.
Defined.

(** ** Order of the labels of the table *)

Lemma ascii_compare_lt_trans (a b c : ascii) :
  Ascii.compare a b = Lt -> Ascii.compare b c = Lt -> Ascii.compare a c = Lt.
Proof.
  unfold Ascii.compare. rewrite !N.compare_lt_iff. lia.
Qed.

Lemma string_compare_lt_trans (a b c : string) :
  String.compare a b = Lt -> String.compare b c = Lt -> String.compare a c = Lt.
Proof.
  revert b c. induction a as [| x a IH]; intros [| y b] [| z c]; simpl;
    try discriminate; try reflexivity.
  destruct (Ascii.compare x y) eqn:Exy; try discriminate;
    destruct (Ascii.compare y z) eqn:Eyz; try discriminate; intros Hab Hbc.
  - pose proof Exy as E. apply Ascii.compare_eq_iff in Exy, Eyz. subst.
    rewrite E. now apply (IH b c).
  - apply Ascii.compare_eq_iff in Exy. subst. now rewrite Eyz.
  - apply Ascii.compare_eq_iff in Eyz. subst. now rewrite Exy.
  - now rewrite (ascii_compare_lt_trans x y z Exy Eyz).
Qed.

Lemma string_ltb_trans (a b c : string) :
  String.ltb a b = true -> String.ltb b c = true -> String.ltb a c = true.
Proof.
  unfold String.ltb. intros Hab Hbc.
  destruct (String.compare a b) eqn:Eab; try discriminate.
  destruct (String.compare b c) eqn:Ebc; try discriminate.
  now rewrite (string_compare_lt_trans a b c Eab Ebc).
Qed.

Lemma string_ltb_trichotomy (a b : string) :
  String.ltb a b = false -> String.eqb a b = false -> String.ltb b a = true.
Proof.
  unfold String.ltb. rewrite (String.compare_antisym b a).
  destruct (String.compare a b) eqn:E; simpl; try discriminate; [| reflexivity].
  apply String.compare_eq_iff in E. subst. now rewrite String.eqb_refl.
Qed.

Lemma string_ltb_irrefl (a : string) : String.ltb a a = false.
Proof.
  unfold String.ltb. pose proof (String.compare_antisym a a) as H.
  destruct (String.compare a a); simpl in H; try discriminate; reflexivity.
Qed.

Section SortUniq.

Variable A : Type.
Variables ltb eqb : A -> A -> bool.
Hypothesis eqb_eq : forall x y, eqb x y = true -> x = y.
Hypothesis ltb_trans : forall x y z, ltb x y = true -> ltb y z = true -> ltb x z = true.
Hypothesis ltb_trichotomy : forall x y, ltb x y = false -> eqb x y = false -> ltb y x = true.
Hypothesis ltb_irrefl : forall x, ltb x x = false.

Lemma insert_uniq_sorted (x : A) (l : list A) :
  StronglySorted (fun a b => ltb a b = true) l ->
  StronglySorted (fun a b => ltb a b = true) (insert_uniq ltb eqb x l).
Proof.
  induction 1 as [| y l Hs IH Hall]; simpl.
  - repeat constructor.
  - destruct (ltb x y) eqn:Elt.
    + constructor; [now constructor |].
      constructor; [exact Elt |].
      rewrite Forall_forall in *. intros z Hz. eapply ltb_trans; [exact Elt | now apply Hall].
    + destruct (eqb x y) eqn:Eeq; [now constructor |].
      constructor; [exact IH |].
      rewrite Forall_forall in *. intros z Hz.
      apply (insert_uniq_In ltb eqb eqb_eq) in Hz.
      destruct Hz as [-> | Hz]; [now apply ltb_trichotomy | now apply Hall].
Qed.

Lemma sort_uniq_sorted (l : list A) :
  StronglySorted (fun a b => ltb a b = true) (sort_uniq ltb eqb l).
Proof.
  unfold sort_uniq. induction l as [| x l IH]; simpl; [constructor |].
  now apply insert_uniq_sorted.
Qed.

Lemma strictly_sorted_NoDup (l : list A) :
  StronglySorted (fun a b => ltb a b = true) l -> NoDup l.
Proof.
  induction 1 as [| x l Hs IH Hall]; constructor; [| exact IH].
  intros Hin. rewrite Forall_forall in Hall.
  specialize (Hall x Hin). rewrite ltb_irrefl in Hall. discriminate.
Qed.

End SortUniq.

Lemma Z_ltb_trans (x y z : Z) : (x <? y)%Z = true -> (y <? z)%Z = true -> (x <? z)%Z = true.
Proof. rewrite !Z.ltb_lt. lia. Qed.

Lemma Z_ltb_trichotomy (x y : Z) :
  (x <? y)%Z = false -> (x =? y)%Z = false -> (y <? x)%Z = true.
Proof. rewrite !Z.ltb_ge, Z.eqb_neq, Z.ltb_lt. lia. Qed.

Lemma chart_data_index_sorted (df : frame Observation) :
  ascending_strings (index (chart_data df)).
Proof.
  unfold chart_data, unstack; simpl.
  apply sort_uniq_sorted.
  - apply string_eqb_eq_true.
  - apply string_ltb_trans.
  - apply string_ltb_trichotomy.
Qed.

Lemma StronglySorted_ltb_lt (l : list Z) :
  StronglySorted (fun a b => (a <? b)%Z = true) l -> StronglySorted Z.lt l.
Proof.
  induction 1 as [| x l Hs IH Hall]; constructor; [exact IH |].
  rewrite Forall_forall in *. intros z Hz. apply Z.ltb_lt. now apply Hall.
Qed.

Lemma StronglySorted_lt_NoDup (l : list Z) : StronglySorted Z.lt l -> NoDup l.
Proof.
  induction 1 as [| x l Hs IH Hall]; constructor; [| exact IH].
  intros Hin. rewrite Forall_forall in Hall. specialize (Hall x Hin). lia.
Qed.

Lemma chart_data_columns_sorted (df : frame Observation) :
  ascending_Z (columns (chart_data df)).
Proof.
  unfold chart_data, unstack; simpl.
  apply StronglySorted_ltb_lt, sort_uniq_sorted.
  - apply Z_eqb_eq_true.
  - apply Z_ltb_trans.
  - apply Z_ltb_trichotomy.
Qed.

Lemma chart_data_index_NoDup (df : frame Observation) : NoDup (index (chart_data df)).
Proof.
  eapply strictly_sorted_NoDup; [apply string_ltb_irrefl | apply chart_data_index_sorted].
Qed.

Lemma chart_data_columns_NoDup (df : frame Observation) : NoDup (columns (chart_data df)).
Proof. apply StronglySorted_lt_NoDup, chart_data_columns_sorted. Qed.

(** ** Totals and shape of the table *)

Lemma key_eq_dec (a b : group_key) : {a = b} + {a <> b}.
Proof.
  destruct (key_eqb a b) eqn:E.
  - left. now apply key_eqb_eq.
  - right. intros H. apply key_eqb_eq in H. congruence.
Qed.

Lemma unstack_cell (df : frame Observation) (k : group_key) :
  match series_get (groupby_size df) k with
  | Some n => n
  | None => 0%nat
  end = group_size df k.
Proof.
  unfold groupby_size.
  set (ks := sort_uniq key_ltb key_eqb (map (fun r => key_of (snd r)) df)).
  destruct (in_dec key_eq_dec k ks) as [Hin | Hout].
  - now rewrite (series_get_map (group_size df) ks k Hin).
  - rewrite (series_get_map_None (group_size df) ks k Hout).
    symmetry. apply group_size_absent. intros H. apply Hout.
    apply sort_uniq_In; [apply key_eqb_eq_true | exact H].
Qed.

Lemma chart_data_values (df : frame Observation) :
  values (chart_data df)
  = map (fun l => map (fun y => group_size df (l, y)) (columns (chart_data df)))
        (index (chart_data df)).
Proof.
  unfold chart_data, unstack; simpl.
  apply map_ext. intros l. apply map_ext. intros y. apply unstack_cell.
Qed.

Lemma list_sum_map_add {A : Type} (f g : A -> nat) (l : list A) :
  list_sum (map (fun x => f x + g x)%nat l)
  = (list_sum (map f l) + list_sum (map g l))%nat.
Proof.
  induction l as [| x l IH]; simpl; [reflexivity |]. rewrite IH. lia.
Qed.

Lemma list_sum_zero {A : Type} (f : A -> nat) (l : list A) :
  (forall x, f x = 0%nat) -> list_sum (map f l) = 0%nat.
Proof.
  intros H. induction l as [| x l IH]; simpl; [reflexivity |].
  now rewrite H, IH.
Qed.

Lemma indicator_sum_absent {A : Type} (eqb : A -> A -> bool)
  (eqb_eq : forall x y, eqb x y = true <-> x = y) (x : A) (l : list A) :
  ~ In x l -> list_sum (map (fun z => if eqb x z then 1 else 0)%nat l) = 0%nat.
Proof.
  induction l as [| z l IH]; simpl; [reflexivity |]. intros H.
  destruct (eqb x z) eqn:E; [apply eqb_eq in E; subst; tauto |].
  apply IH. tauto.
Qed.

Lemma indicator_sum_present {A : Type} (eqb : A -> A -> bool)
  (eqb_eq : forall x y, eqb x y = true <-> x = y) (x : A) (l : list A) :
  NoDup l -> In x l ->
  list_sum (map (fun z => if eqb x z then 1 else 0)%nat l) = 1%nat.
Proof.
  induction 1 as [| z l Hout Hnd IH]; simpl; [tauto |]. intros Hin.
  destruct (eqb x z) eqn:E.
  - apply eqb_eq in E. subst z.
    now rewrite (indicator_sum_absent eqb eqb_eq x l Hout).
  - destruct Hin as [-> | Hin]; [| now rewrite IH].
    rewrite (proj2 (eqb_eq x x) eq_refl) in E. discriminate.
Qed.

(** The counts over a grid of distinct labels add up to the number of rows
    whose location and year are both on the grid. *)
Lemma grid_sum_length (idx : list string) (cols : list Z) (df : frame Observation) :
  NoDup idx -> NoDup cols ->
  (forall r, In r df -> In (Location (snd r)) idx /\ In (Year (snd r)) cols) ->
  list_sum (map (fun l => list_sum (map (fun y => group_size df (l, y)) cols)) idx)
  = List.length df.
Proof.
  intros Hidx Hcols. induction df as [| r df IH]; intros Hgrid.
  - apply list_sum_zero. intros l. now apply list_sum_zero.
  - assert (Hstep : forall l y,
               group_size (r :: df) (l, y)
               = ((if String.eqb (Location (snd r)) l
                   then (if (Year (snd r) =? y)%Z then 1 else 0) else 0)
                  + group_size df (l, y))%nat).
    { intros l y. unfold group_size, key_eqb, key_of. simpl.
      destruct (String.eqb (Location (snd r)) l), (Year (snd r) =? y)%Z; reflexivity. }
    rewrite (map_ext _ (fun l =>
               (list_sum (map (fun y => if String.eqb (Location (snd r)) l
                                        then (if (Year (snd r) =? y)%Z then 1 else 0)
                                        else 0) cols)
                + list_sum (map (fun y => group_size df (l, y)) cols))%nat)).
    2:{ intros l. rewrite <- list_sum_map_add. apply f_equal, map_ext.
        intros y. apply Hstep. }
    rewrite list_sum_map_add, IH by (intros r' Hr'; apply Hgrid; now right).
    destruct (Hgrid r (or_introl eq_refl)) as [Hl Hy].
    rewrite (map_ext _ (fun l => if String.eqb (Location (snd r)) l then 1 else 0)%nat).
    2:{ intros l. destruct (String.eqb (Location (snd r)) l).
        - apply (indicator_sum_present Z.eqb Z.eqb_eq); assumption.
        - now apply list_sum_zero. }
    rewrite (indicator_sum_present String.eqb String.eqb_eq) by assumption.
    reflexivity.
Qed.

(** X1: the counts of the table add up to the number of rows it was built
    from: every filtered row is counted, once. *)
Theorem chart_data_total :
  forall (df : frame Observation),
    chart_total (chart_data df) = List.length df.
Proof.
  intros df. unfold chart_total. rewrite chart_data_values, map_map.
  apply grid_sum_length.
  - apply chart_data_index_NoDup.
  - apply chart_data_columns_NoDup.
  - intros r Hr. split.
    + apply chart_data_index. apply in_map_iff. now exists r.
    + apply chart_data_columns. apply in_map_iff. now exists r.
Qed.

(** X2: the table is a rectangle with labels in strictly ascending order:
    one list of counts for each row label, each as long as the list of
    column labels, the locations in ascending string order and the years in
    ascending order, none repeated. *)
Theorem chart_data_shape :
  forall (df : frame Observation),
    ascending_strings (index (chart_data df)) /\
    ascending_Z (columns (chart_data df)) /\
    NoDup (index (chart_data df)) /\
    NoDup (columns (chart_data df)) /\
    List.length (values (chart_data df)) = List.length (index (chart_data df)) /\
    Forall (fun row => List.length row = List.length (columns (chart_data df)))
           (values (chart_data df)).
Proof.
  intros df.
  split; [apply chart_data_index_sorted |].
  split; [apply chart_data_columns_sorted |].
  split; [apply chart_data_index_NoDup |].
  split; [apply chart_data_columns_NoDup |].
  rewrite chart_data_values. split; [apply length_map |].
  rewrite Forall_forall. intros row Hrow.
  apply in_map_iff in Hrow. destruct Hrow as (l & <- & _). apply length_map.
Qed.

(** ** Edge cases of the category page *)

Lemma filter_nil {A : Type} (f : A -> bool) (l : list A) :
  (forall x, In x l -> f x = false) -> filter f l = [].
Proof.
  induction l as [| x l IH]; intros H; simpl; [reflexivity |].
  rewrite (H x) by now left. apply IH. intros y Hy. apply H. now right.
Qed.

(** X3: when no row of the frame has its AQI within the selected band (also
    when the frame is empty), the page does not fail: the filtered frame is
    empty and the table has no rows, no columns and no counts. *)
Theorem category_analysis_empty_band :
  forall (melted_df : frame Observation) (name : string) (lo hi : float),
    dict_get aqi_categories name = Some (lo, hi) ->
    (forall r, In r melted_df -> in_band (AQI (snd r)) (lo, hi) = false) ->
    category_analysis melted_df name = OK ([], mkChart [] [] []).
Proof.
  intros melted_df name lo hi Hget Hnone.
  unfold category_analysis. rewrite Hget.
  rewrite filter_band_filter, filter_nil by exact Hnone.
  reflexivity.
Qed.

Lemma category_analysis_empty_band_witness :
  category_analysis frame_50_5 "GOOD" = OK ([], mkChart [] [] []).
Proof.
  apply (category_analysis_empty_band frame_50_5 "GOOD" (of_int 0) (of_int 50)).
  - reflexivity.
  - intros r [<- | []]. reflexivity.
Defined.

(** X4: selecting a band on an already filtered frame: the same band gives
    the filtered frame back, any other band of [aqi_categories] gives the
    empty frame, since no row lies in two bands. *)
Theorem filter_band_twice :
  forall (melted_df : frame Observation) (name1 name2 : string)
         (lo1 hi1 lo2 hi2 : float),
    dict_get aqi_categories name1 = Some (lo1, hi1) ->
    dict_get aqi_categories name2 = Some (lo2, hi2) ->
    filter_band (filter_band melted_df lo1 hi1) lo2 hi2
    = if String.eqb name1 name2 then filter_band melted_df lo1 hi1 else [].
Proof.
  intros melted_df name1 name2 lo1 hi1 lo2 hi2 H1 H2.
  destruct (String.eqb_spec name1 name2) as [-> | Hne].
  - rewrite H1 in H2. injection H2 as <- <-.
    rewrite !filter_band_filter.
    induction melted_df as [| r df IH]; simpl; [reflexivity |].
    destruct (in_band (AQI (snd r)) (lo1, hi1)) eqn:E; simpl; [| exact IH].
    now rewrite E, IH.
  - rewrite (filter_band_filter (filter_band melted_df lo1 hi1)).
    apply filter_nil. intros r Hr.
    destruct (in_band (AQI (snd r)) (lo2, hi2)) eqn:E; [| reflexivity].
    exfalso. apply Hne.
    apply (filter_band_bands_of melted_df r name1 lo1 hi1 H1) in Hr.
    destruct Hr as [_ Hin1].
    assert (Hin2 : In name2 (bands_of (AQI (snd r)))).
    { unfold bands_of.
      apply (dict_get_filter_In (in_band (AQI (snd r))) aqi_categories name2 (lo2, hi2)
               NoDup_keys_aqi_categories H2). exact E. }
    pose proof (bands_of_at_most_one (AQI (snd r))) as Hlen.
    destruct (bands_of (AQI (snd r))) as [| n1 [| n2 l]]; simpl in *; try tauto; try lia.
    intuition congruence.
Qed.

Lemma filter_band_twice_witness :
  filter_band (filter_band frame_two (of_int 0) (of_int 50)) (of_int 0) (of_int 50)
  = filter_band frame_two (of_int 0) (of_int 50) /\
  filter_band (filter_band frame_two (of_int 0) (of_int 50)) (of_int 51) (of_int 100)
  = [].
Proof.
  split.
  - exact (filter_band_twice frame_two "GOOD" "GOOD" _ _ _ _ eq_refl eq_refl).
  - exact (filter_band_twice frame_two "GOOD" "SATISFACTORY" _ _ _ _ eq_refl eq_refl).
Defined.

(** X5: the edges of the bands.  Each band holds both of its bounds; a
    missing AQI and a negative AQI are in no band; every AQI from 401 up,
    the infinite one too, is SEVERE. *)
Theorem bands_edges :
  forall (name : string) (lo hi : float) (q : Q),
    (In (name, (lo, hi)) aqi_categories ->
     bands_of lo = [name] /\ bands_of hi = [name]) /\
    bands_of NaN = [] /\
    (Qlt q (inject_Z 0) -> bands_of (Fin q) = []) /\
    (Qle (inject_Z 401) q -> bands_of (Fin q) = ["SEVERE"]) /\
    bands_of PosInf = ["SEVERE"].
Proof.
  intros name lo hi q.
  split.
  { simpl. intros H.
    repeat (destruct H as [H | H]; [injection H as <- <- <-; split; reflexivity |]).
    destruct H. }
  split; [reflexivity |].
  split; [| split; [| reflexivity]].
  - intros Hq. destruct q as [n d]. unfold Qlt in Hq. simpl in Hq.
    unfold bands_of, aqi_categories, in_band, float_ge, float_le, of_int, Qle_bool;
      cbn [filter map fst snd Qnum Qden inject_Z].
    split_leb; cbn; reflexivity.
  - intros Hq. destruct q as [n d]. unfold Qle in Hq. simpl in Hq.
    unfold bands_of, aqi_categories, in_band, float_ge, float_le, of_int, Qle_bool;
      cbn [filter map fst snd Qnum Qden inject_Z].
    split_leb; cbn; reflexivity.
Qed.

Lemma bands_edges_witness :
  (bands_of (of_int 51) = ["SATISFACTORY"] /\ bands_of (of_int 100) = ["SATISFACTORY"]) /\
  bands_of (Fin (-1 # 2)) = [] /\
  bands_of (Fin (4015 # 10)) = ["SEVERE"].
Proof.
  destruct (bands_edges "SATISFACTORY" (of_int 51) (of_int 100) (-1 # 2))
    as (Hb & _ & Hneg & _).
  destruct (bands_edges "SATISFACTORY" (of_int 51) (of_int 100) (4015 # 10))
    as (_ & _ & _ & Hsev & _).
  split; [apply Hb; simpl; tauto |].
  split; [apply Hneg; reflexivity |].
  apply Hsev. unfold Qle. simpl. lia.
Defined.

(** ** The traces of the Time Series page *)

Lemma df_location_filter (df : frame Observation) (loc : string) :
  df_location df loc = filter (fun r => String.eqb (Location (snd r)) loc) df.
Proof.
  unfold df_location, series_eq, col_Location.
  now rewrite map_map, boolean_index_map.
Qed.

Lemma unique_In (col : list string) (x : string) : In x (unique col) <-> In x col.
Proof.
  unfold unique. rewrite add_columns_In. simpl. tauto.
Qed.

Lemma unique_NoDup (col : list string) : NoDup (unique col).
Proof.
  unfold unique. apply add_columns_NoDup. constructor.
Qed.

Lemma filter_cons_other (names : list string) (r : nat * Observation)
  (df : frame Observation) :
  ~ In (Location (snd r)) names ->
  flat_map (fun l => filter (fun r => String.eqb (Location (snd r)) l) (r :: df)) names
  = flat_map (fun l => filter (fun r => String.eqb (Location (snd r)) l) df) names.
Proof.
  set (F := fun l => filter (fun r0 : nat * Observation =>
                               String.eqb (Location (snd r0)) l) (r :: df)).
  set (G := fun l => filter (fun r0 : nat * Observation =>
                               String.eqb (Location (snd r0)) l) df).
  induction names as [| n names IH]; intros Hout; [reflexivity |].
  change (F n ++ flat_map F names = G n ++ flat_map G names).
  rewrite IH by (intros H; apply Hout; now right).
  f_equal. unfold F, G. cbn [filter].
  destruct (String.eqb_spec (Location (snd r)) n) as [E | _]; [| reflexivity].
  exfalso. apply Hout. now left.
Qed.

(** Splitting a frame by distinct names that cover its locations loses and
    repeats no row. *)
Lemma split_by_location_Permutation (names : list string) (df : frame Observation) :
  NoDup names ->
  (forall r, In r df -> In (Location (snd r)) names) ->
  Permutation
    (flat_map (fun l => filter (fun r => String.eqb (Location (snd r)) l) df) names)
    df.
Proof.
  intros Hnd. induction df as [| r df IH]; intros Hcover.
  - assert (E : flat_map (fun l => filter (fun r : nat * Observation =>
                                             String.eqb (Location (snd r)) l) [])
                         names = [])
      by (clear; induction names; simpl; auto).
    rewrite E. constructor.
  - destruct (in_split _ _ (Hcover r (or_introl eq_refl))) as (n1 & n2 & E).
    rewrite E in Hnd |- *.
    apply NoDup_remove_2 in Hnd.
    rewrite flat_map_app. cbn [flat_map].
    rewrite !filter_cons_other by (intros H; apply Hnd; apply in_or_app; tauto).
    cbn [filter]. rewrite String.eqb_refl.
    rewrite <- app_comm_cons.
    etransitivity; [symmetry; apply Permutation_middle |].
    constructor.
    specialize (IH (fun r' Hr' => Hcover r' (or_intror Hr'))).
    rewrite E, flat_map_app in IH. exact IH.
Qed.

(** X6: the Time Series page draws one trace for each location of the frame
    and no other: the names of the traces are the distinct locations, in the
    order in which they first occur, none repeated; a trace has as many
    dates as values, and at least one. *)
Theorem fig_timeseries_names :
  forall (melted_df : frame Observation),
    map sc_name (fig_timeseries melted_df) = unique (col_Location melted_df) /\
    NoDup (map sc_name (fig_timeseries melted_df)) /\
    (forall l, In l (map sc_name (fig_timeseries melted_df)) <->
               In l (col_Location melted_df)) /\
    (forall t, In t (fig_timeseries melted_df) ->
               List.length (sc_x t) = List.length (sc_y t) /\
               (0 < List.length (sc_x t))%nat).
Proof.
  intros df.
  assert (Hnames : map sc_name (fig_timeseries df) = unique (col_Location df)).
  { unfold fig_timeseries. rewrite map_map. simpl. apply map_id. }
  split; [exact Hnames |]. rewrite Hnames.
  split; [apply unique_NoDup |].
  split; [intros l; apply unique_In |].
  intros t Ht. unfold fig_timeseries in Ht. apply in_map_iff in Ht.
  destruct Ht as (loc & <- & Hloc). simpl.
  unfold col_Date, col_AQI. rewrite !length_map. split; [reflexivity |].
  apply (proj1 (unique_In _ _)) in Hloc.
  unfold col_Location in Hloc. apply in_map_iff in Hloc.
  destruct Hloc as (r & Er & Hr).
  assert (Hin : In r (df_location df loc)).
  { rewrite df_location_filter. apply filter_In. split; [exact Hr |].
    now apply String.eqb_eq. }
  destruct (df_location df loc); [destruct Hin | simpl; lia].
Qed.

(** X7: the traces share out the rows of the frame: the frames of the
    locations, one after the other, are a rearrangement of the frame, each
    holds exactly the rows of its location in the frame's order, and the
    numbers of points of the traces add up to the number of rows. *)
Theorem fig_timeseries_partition :
  forall (melted_df : frame Observation),
    Permutation (flat_map (df_location melted_df) (unique (col_Location melted_df)))
                melted_df /\
    (forall loc r, In r (df_location melted_df loc) <->
                   In r melted_df /\ Location (snd r) = loc) /\
    (forall loc, subseq (df_location melted_df loc) melted_df) /\
    list_sum (map (fun t => List.length (sc_x t)) (fig_timeseries melted_df))
    = List.length melted_df.
Proof.
  intros df.
  assert (Hperm : Permutation (flat_map (df_location df) (unique (col_Location df))) df).
  { rewrite (flat_map_ext (df_location df)
               (fun l => filter (fun r => String.eqb (Location (snd r)) l) df))
      by (intros l; apply df_location_filter).
    apply split_by_location_Permutation; [apply unique_NoDup |].
    intros r Hr. apply unique_In. unfold col_Location. apply in_map_iff. now exists r. }
  split; [exact Hperm |].
  split.
  { intros loc r. rewrite df_location_filter, filter_In, String.eqb_eq. tauto. }
  split.
  { intros loc. rewrite df_location_filter. apply filter_subseq. }
  apply Permutation_length in Hperm. rewrite <- Hperm.
  unfold fig_timeseries. rewrite map_map. simpl.
  rewrite length_flat_map. f_equal. apply map_ext.
  intros loc. unfold col_Date. apply length_map.
Qed.

(** ** A missing file *)

Lemma read_years_missing (fs : filesystem) (ys : list Z) :
  (exists y, In y ys /\ fs (file_path y) = None) ->
  exists pre y0 post,
    ys = pre ++ y0 :: post /\
    (forall y, In y pre -> fs (file_path y) <> None) /\
    fs (file_path y0) = None /\
    read_years fs ys = Error (MissingSourceError (file_path y0)).
Proof.
  induction ys as [| y ys IH]; intros (y1 & Hin & Hnone); [destruct Hin |].
  rewrite read_years_cons.
  destruct (fs (file_path y)) as [t |] eqn:E.
  - destruct Hin as [-> | Hin]; [congruence |].
    destruct IH as (pre & y0 & post & -> & Hpre & Hy0 & ->); [now exists y1 |].
    exists (y :: pre), y0, post. repeat split; try assumption.
    intros z [<- | Hz]; [congruence | now apply Hpre].
  - exists [], y, ys. repeat split; try assumption. intros z [].
Qed.

(** X8: when a yearly file is missing, [load_data] fails with
    [MissingSourceError] carrying the path of the first missing file in the
    order of the years, whatever the files hold (unknown months included):
    the files are all read before any date is parsed.  Nothing is cached. *)
Theorem load_data_missing_file :
  forall (argsort : list Timestamp -> list nat) (fs : filesystem),
    (exists y, In y years /\ fs (file_path y) = None) ->
    exists pre y0 post,
      years = pre ++ y0 :: post /\
      (forall y, In y pre -> fs (file_path y) <> None) /\
      fs (file_path y0) = None /\
      load_data argsort fs = Error (MissingSourceError (file_path y0)) /\
      cached_load_data argsort fs (mkSession None)
      = (Error (MissingSourceError (file_path y0)), mkSession None).
Proof.
  intros argsort fs Hmiss.
  destruct (read_years_missing fs years Hmiss) as (pre & y0 & post & E & Hpre & Hy0 & Hread).
  assert (Hload : load_data argsort fs = Error (MissingSourceError (file_path y0))).
  { unfold load_data. fold (read_years fs years). now rewrite Hread. }
  exists pre, y0, post. repeat split; try assumption.
  unfold cached_load_data. cbn [cache_data]. now rewrite Hload.
Qed.

Lemma load_data_missing_file_witness :
  exists pre y0 post,
    years = pre ++ y0 :: post /\
    (forall y, In y pre -> fs_gaps (file_path y) <> None) /\
    fs_gaps (file_path y0) = None /\
    load_data argsort_insertion fs_gaps = Error (MissingSourceError (file_path y0)) /\
    cached_load_data argsort_insertion fs_gaps (mkSession None)
    = (Error (MissingSourceError (file_path y0)), mkSession None).
Proof.
  apply (load_data_missing_file argsort_insertion fs_gaps).
  exists 2021%Z. split; [vm_compute; tauto | reflexivity].
Defined.

(** ** Size of the loaded frame *)

Lemma load_data_steps (argsort : list Timestamp -> list nat) (fs : filesystem) :
  (forall y, In y years -> exists t, fs (file_path y) = Some t /\ months_known t) ->
  exists dfs ts,
    read_years fs years = OK dfs /\
    pd.to_datetime (date_strings (pd.melt (pd.concat dfs))) = OK ts /\
    load_data argsort fs
    = OK (sort_values argsort (assign_Date (pd.melt (pd.concat dfs)) ts)).
Proof.
  intros Hsrc.
  assert (Hfiles : forall y, In y years -> fs (file_path y) <> None).
  { intros y Hy. destruct (Hsrc y Hy) as (t & -> & _). discriminate. }
  destruct (read_years_total fs years Hfiles) as (dfs & Hread).
  pose proof (read_years_inv fs years dfs Hread) as Htag.
  assert (Hparse : forall s, In s (date_strings (pd.melt (pd.concat dfs))) ->
                             strptime s <> None).
  { intros s Hs. unfold date_strings in Hs. apply in_map_iff in Hs.
    destruct Hs as (p & <- & Hp).
    destruct (melt_In _ _ Hp) as (loc & wr & _ & Hwr & ->).
    cbn [m_Year m_Month].
    destruct (concat_row_origin fs years dfs wr Htag Hwr)
      as (Hy & t & row & Ht & Hrow & Ewr).
    rewrite strptime_date_string by exact Hy.
    destruct (Hsrc _ Hy) as (t' & Ht' & Hknown). rewrite Ht in Ht'. injection Ht' as <-.
    rewrite Ewr. cbn [w_Month].
    specialize (Hknown row Hrow). now destruct (parse_b (fst row)). }
  destruct (to_datetime_from_total 0 _ Hparse) as (ts & Hdates).
  exists dfs, ts. split; [exact Hread |]. split; [exact Hdates |].
  unfold load_data. fold (read_years fs years). rewrite Hread. cbn [bind].
  unfold pd.to_datetime in *. now rewrite Hdates.
Qed.

Lemma concat_rows_length (fs : filesystem) (ys : list Z) (dfs : list wide_frame) :
  Forall2 (tagged fs) ys dfs ->
  List.length (flat_map w_rows dfs) = list_sum (map (file_rows fs) ys).
Proof.
  induction 1 as [| y df ys dfs (t & Ht & ->) _ IH]; [reflexivity |].
  cbn [flat_map map list_sum]. rewrite length_app, IH.
  unfold file_rows at 2. rewrite Ht. cbn [tag_year w_rows]. now rewrite length_map.
Qed.

Lemma list_sum_const {A : Type} (n : nat) (l : list A) :
  list_sum (map (fun _ => n) l) = (List.length l * n)%nat.
Proof.
  induction l as [| x l IH]; simpl; [reflexivity |]. now rewrite IH.
Qed.

Lemma melt_length (wf : wide_frame) :
  List.length (pd.melt wf)
  = (List.length (w_locations wf) * List.length (w_rows wf))%nat.
Proof.
  unfold pd.melt. rewrite length_reset_index, length_flat_map.
  rewrite (map_ext _ (fun _ => List.length (w_rows wf)))
    by (intros loc; apply length_map).
  apply list_sum_const.
Qed.

Lemma concat_columns (fs : filesystem) (dfs : list wide_frame) (L : string) :
  Forall2 (tagged fs) years dfs ->
  (In L (w_locations (pd.concat dfs)) <-> location_of fs L).
Proof.
  intros Htag. cbn [pd.concat w_locations]. rewrite union_columns_In. split.
  - intros (df & Hdf & HL).
    destruct (Forall2_In_r _ _ _ _ Htag Hdf) as (y & Hy & t & Ht & ->).
    now exists y, t.
  - intros (y & t & Hy & Ht & HL).
    destruct (Forall2_In_l _ _ _ _ Htag Hy) as (df & Hdf & t' & Ht' & ->).
    rewrite Ht in Ht'. injection Ht' as <-.
    exists (tag_year t y). split; [exact Hdf | exact HL].
Qed.

(** X9: when every yearly file is there and every [Month] in them is known
    to [%b], [load_data] returns a frame, and the frame has one row for each
    distinct location name of the files and each row of the files: its size
    is the number of distinct location names times the number of rows of all
    the files together. *)
Theorem load_data_size :
  forall (argsort : list Timestamp -> list nat) (fs : filesystem),
    argsort_spec argsort ->
    (forall y, In y years -> exists t, fs (file_path y) = Some t /\ months_known t) ->
    exists df cols,
      load_data argsort fs = OK df /\
      NoDup cols /\
      (forall L, In L cols <-> location_of fs L) /\
      List.length df = (List.length cols * total_rows fs)%nat.
Proof.
  intros argsort fs Hspec Hsrc.
  destruct (load_data_steps argsort fs Hsrc) as (dfs & ts & Hread & Hdates & Hload).
  pose proof (read_years_inv fs years dfs Hread) as Htag.
  exists (sort_values argsort (assign_Date (pd.melt (pd.concat dfs)) ts)),
    (w_locations (pd.concat dfs)).
  split; [exact Hload |].
  split; [apply union_columns_NoDup |].
  split; [intros L; now apply concat_columns |].
  rewrite (Permutation_length (sort_values_Permutation argsort _ Hspec)).
  pose proof (assign_Date_dated _ _ (to_datetime_from_OK _ _ _ Hdates)) as Hdated.
  rewrite <- (Forall2_length Hdated), melt_length.
  cbn [pd.concat w_rows]. unfold total_rows.
  now rewrite (concat_rows_length fs years dfs Htag).
Qed.

Lemma load_data_size_witness :
  exists df cols,
    load_data argsort_insertion fs_12 = OK df /\
    NoDup cols /\
    (forall L, In L cols <-> location_of fs_12 L) /\
    List.length df = (List.length cols * total_rows fs_12)%nat.
Proof.
  apply (load_data_size argsort_insertion fs_12 argsort_insertion_spec).
  intros y Hy. apply years_cases in Hy.
  repeat (destruct Hy as [-> | Hy]); [.. | subst y];
    (eexists; split; [reflexivity |];
     intros row Hrow; vm_compute in Hrow;
     repeat (destruct Hrow as [<- | Hrow]; [discriminate |]); destruct Hrow).
Defined.

(** ** Labels and cells of the loaded frame *)

Lemma NoDup_map_filter {A B : Type} (f : A -> B) (g : A -> bool) (l : list A) :
  NoDup (map f l) -> NoDup (map f (filter g l)).
Proof.
  induction l as [| x l IH]; simpl; intros H; [constructor |].
  inversion H as [| ? ? Hout Hnd]; subst.
  destruct (g x); simpl; [| now apply IH].
  constructor; [| now apply IH].
  intros Hin. apply Hout. apply in_map_iff in Hin.
  destruct Hin as (z & Ez & Hz). apply filter_In in Hz.
  apply in_map_iff. exists z. tauto.
Qed.

(** X10: [sort_values] keeps the index: the labels of the loaded frame are
    the numbers 0 to n-1 of the melted rows, each once, so a label names one
    row, also in every frame filtered by a band. *)
Theorem load_data_labels :
  forall (argsort : list Timestamp -> list nat) (fs : filesystem)
         (df : frame Observation),
    argsort_spec argsort ->
    load_data argsort fs = OK df ->
    Permutation (map fst df) (seq 0 (List.length df)) /\
    NoDup (map fst df) /\
    (forall lo hi, NoDup (map fst (filter_band df lo hi))).
Proof.
  intros argsort fs df Hspec Hload.
  destruct (load_data_OK_inv _ _ _ Hload) as (dfs & ts & _ & Hdates & ->).
  apply to_datetime_from_OK, assign_Date_dated in Hdates.
  set (D := assign_Date (pd.melt (pd.concat dfs)) ts) in *.
  assert (Hlab : map fst D = seq 0 (List.length D)).
  { rewrite (dated_labels _ _ Hdates).
    rewrite <- (length_map fst D), (dated_labels _ _ Hdates), length_map.
    unfold pd.melt. now rewrite map_fst_reset_index, length_reset_index. }
  pose proof (sort_values_Permutation argsort D Hspec) as Hperm.
  assert (H1 : Permutation (map fst (sort_values argsort D))
                 (seq 0 (List.length (sort_values argsort D)))).
  { rewrite (Permutation_length Hperm), <- Hlab. now apply Permutation_map. }
  assert (H2 : NoDup (map fst (sort_values argsort D))).
  { eapply Permutation_NoDup; [symmetry; exact H1 | apply seq_NoDup]. }
  split; [exact H1 |]. split; [exact H2 |].
  intros lo hi. rewrite filter_band_filter. now apply NoDup_map_filter.
Qed.

Lemma load_data_labels_witness :
  exists df,
    load_data argsort_ties_reversed fs_ABC = OK df /\
    Permutation (map fst df) (seq 0 (List.length df)) /\
    NoDup (map fst df) /\
    (forall lo hi, NoDup (map fst (filter_band df lo hi))).
Proof.
  eexists. split; [vm_compute; reflexivity |].
  apply (load_data_labels argsort_ties_reversed fs_ABC).
  - apply argsort_ties_reversed_spec.
  - vm_compute. reflexivity.
Defined.






(** ** The traces of a loaded frame *)

(** X13: each line of the Time Series page runs forward in time: in the
    trace of any location of a loaded frame every date is at most the
    next. *)
Theorem fig_timeseries_ascending :
  forall (argsort : list Timestamp -> list nat) (fs : filesystem)
         (df : frame Observation) (t : Scatter),
    argsort_spec argsort ->
    load_data argsort fs = OK df ->
    In t (fig_timeseries df) ->
    ascending (sc_x t).
Proof.
  intros argsort fs df t Hspec Hload Ht.
  destruct (load_data_OK_inv _ _ _ Hload) as (dfs & ts & _ & _ & ->).
  unfold fig_timeseries in Ht. apply in_map_iff in Ht.
  destruct Ht as (loc & <- & _). cbn [sc_x].
  rewrite df_location_filter. apply Sorted_ascending.
  unfold col_Date. apply Sorted_filter_map.
  apply Sorted_ascending. now apply sort_values_ascending.
Qed.

Lemma fig_timeseries_ascending_witness :
  exists df t,
    load_data argsort_ties_reversed fs_ABC = OK df /\
    nth_error (fig_timeseries df) 0 = Some t /\
    ascending (sc_x t).
Proof.
  eexists. eexists. split; [vm_compute; reflexivity |].
  split; [vm_compute; reflexivity |].
  apply (fig_timeseries_ascending argsort_ties_reversed fs_ABC _ _
           argsort_ties_reversed_spec eq_refl).
  vm_compute. tauto.
Defined.

Lemma melted_rows_of_location (cols : list string) (R : list wide_row) (L : string) :
  NoDup cols -> In L cols ->
  filter (fun r => String.eqb (m_Location r) L)
         (flat_map (fun loc =>
                      map (fun r => mkMelted (w_Month r) (w_Year r) loc (cell r loc)) R)
                   cols)
  = map (fun r => mkMelted (w_Month r) (w_Year r) L (cell r L)) R.
Proof.
  assert (Hchunk : forall loc,
             filter (fun r => String.eqb (m_Location r) L)
                    (map (fun r => mkMelted (w_Month r) (w_Year r) loc (cell r loc)) R)
             = if String.eqb loc L
               then map (fun r => mkMelted (w_Month r) (w_Year r) loc (cell r loc)) R
               else []).
  { intros loc. induction R as [| r R IH]; simpl.
    - now destruct (String.eqb loc L).
    - rewrite IH. destruct (String.eqb loc L); reflexivity. }
  assert (Hnone : forall cols, ~ In L cols ->
             filter (fun r => String.eqb (m_Location r) L)
                    (flat_map (fun loc =>
                                 map (fun r => mkMelted (w_Month r) (w_Year r) loc (cell r loc)) R)
                              cols) = []).
  { intros cs. induction cs as [| c cs IH]; intros Hout; [reflexivity |].
    cbn [flat_map]. rewrite filter_app, Hchunk, IH by (simpl in Hout; tauto).
    destruct (String.eqb_spec c L); [subst; simpl in Hout; tauto | reflexivity]. }
  induction cols as [| c cols IH]; intros Hnd Hin; [destruct Hin |].
  cbn [flat_map]. rewrite filter_app, Hchunk.
  inversion Hnd as [| ? ? Hnotin Hnd']; subst.
  destruct (String.eqb_spec c L) as [-> | Hne].
  - rewrite (Hnone cols Hnotin). apply app_nil_r.
  - destruct Hin as [-> | Hin]; [congruence |].
    simpl. now apply IH.
Qed.

Lemma fig_timeseries_names_aux (df : frame Observation) (t : Scatter) :
  In t (fig_timeseries df) ->
  In (sc_name t) (col_Location df) /\
  List.length (sc_x t) = List.length (sc_y t).
Proof.
  intros Ht. unfold fig_timeseries in Ht. apply in_map_iff in Ht.
  destruct Ht as (loc & <- & Hloc). cbn [sc_name sc_x sc_y].
  split; [now apply unique_In |].
  unfold col_Date, col_AQI. now rewrite !length_map.
Qed.

(** X14: in a loaded frame every location has a point for every row of
    every yearly file: each trace of the Time Series page belongs to a
    location column of some file and has as many points (dates, and values)
    as the yearly files have rows together. *)
Theorem fig_timeseries_points :
  forall (argsort : list Timestamp -> list nat) (fs : filesystem)
         (df : frame Observation) (t : Scatter),
    argsort_spec argsort ->
    load_data argsort fs = OK df ->
    In t (fig_timeseries df) ->
    location_of fs (sc_name t) /\
    List.length (sc_x t) = total_rows fs /\
    List.length (sc_y t) = total_rows fs.
Proof.
  intros argsort fs df t Hspec Hload Ht.
  destruct (fig_timeseries_names_aux df t Ht) as (Hname & Hxy).
  destruct (load_data_OK_inv _ _ _ Hload) as (dfs & ts & Hread & Hdates & ->).
  pose proof (read_years_inv fs years dfs Hread) as Htag.
  apply to_datetime_from_OK, assign_Date_dated in Hdates.
  set (mdf := pd.melt (pd.concat dfs)) in *.
  set (D := assign_Date mdf ts) in *.
  unfold fig_timeseries in Ht. apply in_map_iff in Ht.
  destruct Ht as (loc & <- & _). cbn [sc_name sc_x sc_y] in *.
  (* the location is a column of the combined frame *)
  assert (Hloc : In loc (w_locations (pd.concat dfs))).
  { unfold col_Location in Hname. apply in_map_iff in Hname.
    destruct Hname as (p & <- & Hp). apply take_In in Hp.
    destruct (Forall2_In_r _ _ _ _ Hdates Hp) as (q & Hq & _ & _ & _ & EL & _).
    destruct (melt_In _ _ Hq) as (loc' & wr & Hloc' & _ & Eq).
    rewrite EL, Eq. exact Hloc'. }
  split; [now apply (concat_columns fs dfs loc Htag) |].
  assert (Hx : List.length (col_Date (df_location (sort_values argsort D) loc))
               = total_rows fs); [| split; [exact Hx | now rewrite <- Hxy]].
  unfold col_Date. rewrite length_map, df_location_filter.
  set (pred := fun r : nat * Observation => String.eqb (Location (snd r)) loc).
  set (predM := fun r : melted_row => String.eqb (m_Location r) loc).
  rewrite (Permutation_length
             (Permutation_filter pred _ _ (sort_values_Permutation argsort D Hspec))).
  assert (Hsel : Forall2 dated (filter (fun p => predM (snd p)) mdf) (filter pred D)).
  { apply Forall2_filter; [| exact Hdates].
    intros p o (_ & _ & _ & EL & _). unfold pred, predM. now rewrite EL. }
  rewrite <- (Forall2_length Hsel), <- (length_map snd), filter_map_snd.
  unfold mdf, pd.melt. rewrite map_snd_reset_index.
  unfold predM. rewrite melted_rows_of_location;
    [| apply union_columns_NoDup | exact Hloc].
  rewrite length_map. cbn [pd.concat w_rows]. unfold total_rows.
  now rewrite (concat_rows_length fs years dfs Htag).
Qed.

Lemma fig_timeseries_points_witness :
  exists df t,
    load_data argsort_insertion fs_12 = OK df /\
    nth_error (fig_timeseries df) 1 = Some t /\
    location_of fs_12 (sc_name t) /\
    List.length (sc_x t) = total_rows fs_12 /\
    List.length (sc_y t) = total_rows fs_12.
Proof.
  eexists. eexists. split; [vm_compute; reflexivity |].
  split; [vm_compute; reflexivity |].
  apply (fig_timeseries_points argsort_insertion fs_12 _ _
           argsort_insertion_spec eq_refl).
  vm_compute. tauto.
Defined.

(** ** The cache across calls *)



(** ** Counts of the table of a loaded frame *)

Lemma filter_filter_length {A : Type} (f g : A -> bool) (l : list A) :
  (List.length (filter f (filter g l)) <= List.length (filter f l))%nat.
Proof.
  induction l as [| x l IH]; simpl; [lia |].
  destruct (g x); simpl; destruct (f x); simpl; lia.
Qed.

(** The rows of a loaded frame with a given location and year are as many as
    the rows of the file of that year. *)
Lemma load_data_group_size (argsort : list Timestamp -> list nat) (fs : filesystem)
  (df : frame Observation) (L : string) (Y : Z) :
  argsort_spec argsort ->
  load_data argsort fs = OK df ->
  In Y years -> location_of fs L ->
  group_size df (L, Y) = file_rows fs Y.
Proof.
  intros Hspec Hload HY HL.
  destruct (load_data_OK_inv _ _ _ Hload) as (dfs & ts & Hread & Hdates & ->).
  pose proof (read_years_inv fs years dfs Hread) as Htag.
  apply to_datetime_from_OK, assign_Date_dated in Hdates.
  set (mdf := pd.melt (pd.concat dfs)) in *.
  set (D := assign_Date mdf ts) in *.
  destruct (Forall2_In_l _ _ _ _ Htag HY) as (dfY & _ & t & Ht & _).
  set (pred := fun r : nat * Observation => key_eqb (key_of (snd r)) (L, Y)).
  set (predM := fun r : melted_row =>
                  (m_Year r =? Y)%Z && String.eqb (m_Location r) L).
  unfold group_size. fold pred.
  rewrite (Permutation_length
             (Permutation_filter pred _ _ (sort_values_Permutation argsort D Hspec))).
  assert (Hsel : Forall2 dated (filter (fun p => predM (snd p)) mdf) (filter pred D)).
  { apply Forall2_filter; [| exact Hdates].
    intros p o (_ & _ & EY & EL & _). unfold pred, predM, key_eqb, key_of. simpl.
    rewrite EY, EL. apply andb_comm. }
  rewrite <- (Forall2_length Hsel), <- (length_map snd), filter_map_snd.
  unfold mdf, pd.melt. rewrite map_snd_reset_index.
  unfold predM. cbn [pd.concat w_rows w_locations].
  rewrite melted_rows_of;
    [| apply union_columns_NoDup | now apply (concat_columns fs dfs L Htag)].
  rewrite (concat_rows_of_year fs years dfs Y t Htag NoDup_years HY Ht).
  cbn [tag_year w_rows]. rewrite !length_map.
  unfold file_rows. now rewrite Ht.
Qed.

Lemma load_data_row_location (argsort : list Timestamp -> list nat) (fs : filesystem)
  (df : frame Observation) (p : nat * Observation) :
  load_data argsort fs = OK df -> In p df -> location_of fs (Location (snd p)).
Proof.
  intros Hload Hp.
  destruct (load_data_OK_inv _ _ _ Hload) as (dfs & ts & Hread & Hdates & ->).
  apply take_In in Hp.
  apply to_datetime_from_OK, assign_Date_dated in Hdates.
  destruct (Forall2_In_r _ _ _ _ Hdates Hp) as (q & Hq & _ & _ & _ & EL & _).
  destruct (melt_In _ _ Hq) as (loc & wr & Hloc & _ & Eq).
  rewrite EL, Eq. cbn [m_Location].
  apply (concat_columns fs dfs loc (read_years_inv fs years dfs Hread)). exact Hloc.
Qed.

(** X16: no bar of the category chart of a loaded frame is higher than a
    year is long: the count the table holds for a location and a year is at
    most the number of rows of the file of that year (twelve for a file with
    one row per month). *)
Theorem chart_data_count_bound :
  forall (argsort : list Timestamp -> list nat) (fs : filesystem)
         (df : frame Observation) (name : string)
         (filtered_df : frame Observation) (chart_data' : chart)
         (loc : string) (yr : Z) (n : nat),
    argsort_spec argsort ->
    load_data argsort fs = OK df ->
    category_analysis df name = OK (filtered_df, chart_data') ->
    chart_get chart_data' loc yr = Some n ->
    (n <= file_rows fs yr)%nat.
Proof.
  intros argsort fs df name filtered_df chart_data' loc yr n Hspec Hload Hcat Hget.
  unfold category_analysis in Hcat.
  destruct (dict_get aqi_categories name) as [[lo hi] |]; [| discriminate].
  injection Hcat as <- <-.
  set (F := filter_band df lo hi) in *.
  destruct (in_dec string_dec loc (map (fun r => Location (snd r)) F)) as [Hl | Hl];
    [| rewrite (chart_get_no_row F loc yr Hl) in Hget; discriminate].
  destruct (in_dec Z.eq_dec yr (map (fun r => Year (snd r)) F)) as [Hy | Hy];
    [| rewrite (chart_get_no_column F loc yr Hy) in Hget; discriminate].
  rewrite (chart_get_present F loc yr Hl Hy) in Hget. injection Hget as <-.
  assert (Hsub : forall r, In r F -> In r df).
  { intros r Hr. unfold F in Hr. rewrite filter_band_filter in Hr.
    apply filter_In in Hr. tauto. }
  apply in_map_iff in Hl. destruct Hl as (r1 & <- & Hr1).
  apply in_map_iff in Hy. destruct Hy as (r2 & <- & Hr2).
  rewrite <- (load_data_group_size argsort fs df (Location (snd r1)) (Year (snd r2))
                Hspec Hload).
  - unfold group_size, F. rewrite filter_band_filter. apply filter_filter_length.
  - apply (load_data_row argsort fs df r2 Hload (Hsub r2 Hr2)).
  - apply (load_data_row_location argsort fs df r1 Hload (Hsub r1 Hr1)).
Qed.

Lemma chart_data_count_bound_witness :
  exists df filtered_df chart_data',
    load_data argsort_insertion fs_12 = OK df /\
    category_analysis df "GOOD" = OK (filtered_df, chart_data') /\
    chart_get chart_data' "A" 2018 = Some 12%nat /\
    (12 <= file_rows fs_12 2018)%nat.
Proof.
  do 3 eexists. split; [vm_compute; reflexivity |].
  split; [vm_compute; reflexivity |].
  split; [vm_compute; reflexivity |].
  eapply (chart_data_count_bound argsort_insertion fs_12 _ "GOOD" _ _ "A" 2018%Z 12%nat
            argsort_insertion_spec); vm_compute; reflexivity.
Defined.
